(** * Utah population dashboard ([Ames.py])

    A shallow embedding of the data preparation of the dashboard: the
    boundary loader [load_tiger_counties], the population loader
    [read_utah_population], the state filter and left merge that build
    [utah_gdf], and the sort that builds [plot_df].

    pandas objects are modelled as follows.
    - A DataFrame is the list of its rows in order, each row paired with
      its index label.  Boolean-mask selection and [sort_values] keep the
      labels; [read_csv], [read_file] and [merge] number the rows afresh.
    - An integer column has dtype int64: a cell is a [Z] in the signed
      64-bit range and arithmetic wraps modulo 2^64, as numpy does.
    - A text column holds Python [str] values, modelled as [string].
    - A cell that [merge] leaves without value is [None]. *)

From Stdlib Require Import ZArith List String Ascii Bool Lia.
From Stdlib Require Import Sorted Permutation.
From Stdlib Require Import DecimalString DecimalZ DecimalPos DecimalN.
Import ListNotations.

Local Open Scope string_scope.
Local Open Scope Z_scope.

(** ** Python strings *)

Module PyStr.

(** [str(n)] for a Python [int]: decimal digits, a leading [-] for a
    negative number, no leading zero. *)
Definition str (n : Z) : string := NilZero.string_of_int (Z.to_int n).

Fixpoint zeros (n : nat) : string :=
  match n with
  | O => EmptyString
  | S k => String "0" (zeros k)
  end.

Definition is_sign (c : ascii) : bool :=
  (Ascii.eqb c "+" || Ascii.eqb c "-")%bool.

(** [s.zfill(width)]: the string is returned unchanged when it already
    has [width] characters or more; otherwise zeros are inserted on the
    left, after a leading sign when there is one.  [Series.str.zfill]
    applies it to every element.  (Old pandas releases put the zeros
    before a sign; no result below is about a signed text.) *)
Definition zfill (width : nat) (s : string) : string :=
  if (width <=? String.length s)%nat then s
  else
    let pad := zeros (width - String.length s) in
    match s with
    | String c rest =>
        if is_sign c then String c (pad ++ rest)%string
        else (pad ++ s)%string
    | EmptyString => pad
    end.

Definition is_digit (c : ascii) : bool :=
  ((48 <=? nat_of_ascii c) && (nat_of_ascii c <=? 57))%nat.

(** Every character is one of [0] .. [9]. *)
Fixpoint all_digits (s : string) : bool :=
  match s with
  | EmptyString => true
  | String c rest => is_digit c && all_digits rest
  end.

(** [s[:n]]: the first [n] characters, or all of [s] when it is
    shorter. *)
Fixpoint prefix (n : nat) (s : string) : string :=
  match n, s with
  | S k, String c rest => String c (prefix k rest)
  | _, _ => EmptyString
  end.

End PyStr.

(** ** int64 cells *)

Module Int64.

Definition min_int : Z := - 2 ^ 63.
Definition max_int : Z := 2 ^ 63 - 1.

Definition in_range (z : Z) : Prop := min_int <= z <= max_int.

(** Two's complement reduction to the signed 64-bit range. *)
Definition wrap (z : Z) : Z := (z + 2 ^ 63) mod 2 ^ 64 - 2 ^ 63.

(** Element-wise [a - b] on int64 columns. *)
Definition sub (a b : Z) : Z := wrap (a - b).

End Int64.

(** ** DataFrames *)

Module Pandas.

Definition DataFrame (R : Type) : Type := list (nat * R).

Definition index {R} (df : DataFrame R) : list nat := map fst df.
Definition rows {R} (df : DataFrame R) : list R := map snd df.

(** A fresh [RangeIndex]: labels 0, 1, 2, ... *)
Definition range_index {R} (rs : list R) : DataFrame R :=
  combine (seq 0 (List.length rs)) rs.

(** [df[mask]] where the mask is computed row by row. *)
Definition select {R} (mask : R -> bool) (df : DataFrame R) : DataFrame R :=
  filter (fun ir => mask (snd ir)) df.

(** Row-wise column computations ([df[c] = ...], column selection and
    renaming): labels and order are kept. *)
Definition assign {R S} (f : R -> S) (df : DataFrame R) : DataFrame S :=
  map (fun ir => (fst ir, f (snd ir))) df.

Section Sorting.
Context {R : Type} (key : R -> Z).

(** Ascending insertion by key; a new element goes before the first
    element whose key is not smaller, so that [argsort] is stable. *)
Fixpoint insert (x : nat * R) (l : DataFrame R) : DataFrame R :=
  match l with
  | [] => [x]
  | y :: l' =>
      if key (snd x) <=? key (snd y) then x :: l
      else y :: insert x l'
  end.

Fixpoint argsort (l : DataFrame R) : DataFrame R :=
  match l with
  | [] => []
  | x :: l' => insert x (argsort l')
  end.

(** [df.sort_values(key, ascending=False)] on an int64 column.
    pandas ([nargsort]) reverses the column, sorts it in ascending
    order and reverses the result.  The ascending sort is numpy's;
    which of two rows with equal keys comes first depends on its
    kind, and is the only thing in which it can differ from
    [argsort]. *)
Definition sort_values_desc (df : DataFrame R) : DataFrame R :=
  rev (argsort (rev df)).

End Sorting.

End Pandas.

(** ** Failures

    The spec's taxonomy.  In the code they are the exceptions of the
    libraries called: [requests.exceptions.RequestException] for
    [RetrievalError], [zipfile.BadZipFile] for [ExtractionError], the
    reader's own error for [ParseError], [FileNotFoundError] for
    [MissingFileError].  Nothing in [Ames.py] catches any of them. *)

Inductive error : Type :=
| RetrievalError
| ExtractionError
| ParseError
| MissingFileError.

Inductive result (A : Type) : Type :=
| Ok (a : A)
| Raise (e : error).
Arguments Ok {A} a.
Arguments Raise {A} e.

(** ** Tables of the program *)

(** [DataPop.csv] as [pd.read_csv] types it: the columns the program
    reads.  [SUMLEV], [STATE], [COUNTY] and the two estimates are int64
    columns, [CTYNAME] is text.  A cell beyond the signed 64-bit range
    makes pandas type its column otherwise: what is proved about the
    values of the estimates assumes every cell of both columns in range
    ([int64_estimates] below). *)
Module Csv.
Record row : Type := mk {
  SUMLEV : Z;
  STATE : Z;
  COUNTY : Z;
  CTYNAME : string;
  POPESTIMATE2020 : Z;
  POPESTIMATE2024 : Z
}.
End Csv.

(** The frame after lines 65-70: the input columns and the four new
    ones. *)
Module Fips.
Record row : Type := mk {
  csv : Csv.row;
  STATEFP : string;
  COUNTYFP : string;
  GEOID : string;
  NAME : string
}.
End Fips.

(** The frame after the column selection and renaming of lines 73-79. *)
Module Sel.
Record row : Type := mk {
  NAME : string;
  GEOID : string;
  STATEFP : string;
  POP2020 : Z;
  POP2024 : Z
}.
End Sel.

(** [pop_df]: the frame [read_utah_population] returns. *)
Module Pop.
Record row : Type := mk {
  NAME : string;
  GEOID : string;
  STATEFP : string;
  POP2020 : Z;
  POP2024 : Z;
  Pop_Change : Z
}.
End Pop.

(** A cell of an attribute column as the shapefile reader delivers it. *)
Inductive cell : Type :=
| CInt (z : Z)
| CStr (s : string).

(** [astype(str)] on one cell. *)
Definition astype_str (c : cell) : string :=
  match c with
  | CInt z => PyStr.str z
  | CStr s => s
  end.

(** The county layer as [gpd.read_file] returns it.  Of its attribute
    columns only those the program or the merge names are kept; [G] is
    the type of geometries. *)
Module Shp.
Record row {G : Type} : Type := mk {
  STATEFP : string;
  GEOID : cell;
  NAME : string;
  geometry : G
}.
Arguments row : clear implicits.
End Shp.

(** [TIGER]: the layer with its identifier normalised. *)
Module Tiger.
Record row {G : Type} : Type := mk {
  STATEFP : string;
  GEOID : string;
  NAME : string;
  geometry : G
}.
Arguments row : clear implicits.
End Tiger.

(** [utah_gdf] after the merge.  [NAME] and [STATEFP] are in both frames
    and are not the key, so pandas suffixes them [_x] (left) and [_y]
    (right).  The columns that come from [pop_df] are empty in a row
    without match. *)
Module Joined.
Record row {G : Type} : Type := mk {
  STATEFP_x : string;
  GEOID : string;
  NAME_x : string;
  geometry : G;
  NAME_y : option string;
  STATEFP_y : option string;
  POP2020 : option Z;
  POP2024 : option Z;
  Pop_Change : option Z
}.
Arguments row : clear implicits.
End Joined.

(** ** The population loader *)

Import Pandas.

(** Line 62: [df['SUMLEV'] == 50]. *)
Definition is_county (r : Csv.row) : bool := Csv.SUMLEV r =? 50.

(** [astype(int)] on an int64 column changes nothing. *)
Definition astype_int (z : Z) : Z := z.

(** Lines 65-70. *)
Definition add_fips (r : Csv.row) : Fips.row :=
  let STATEFP := PyStr.zfill 2 (PyStr.str (astype_int (Csv.STATE r))) in
  let COUNTYFP := PyStr.zfill 3 (PyStr.str (astype_int (Csv.COUNTY r))) in
  let GEOID := (STATEFP ++ COUNTYFP)%string in
  let NAME := Csv.CTYNAME r in
  Fips.mk r STATEFP COUNTYFP GEOID NAME.

(** Lines 73-79. *)
Definition select_rename (r : Fips.row) : Sel.row :=
  Sel.mk (Fips.NAME r) (Fips.GEOID r) (Fips.STATEFP r)
         (Csv.POPESTIMATE2020 (Fips.csv r))
         (Csv.POPESTIMATE2024 (Fips.csv r)).

(** Line 82. *)
Definition add_pop_change (r : Sel.row) : Pop.row :=
  Pop.mk (Sel.NAME r) (Sel.GEOID r) (Sel.STATEFP r)
         (Sel.POP2020 r) (Sel.POP2024 r)
         (Int64.sub (Sel.POP2024 r) (Sel.POP2020 r)).

(** Line 85: [df['STATEFP'] == "49"]. *)
Definition is_utah (r : Pop.row) : bool := (Pop.STATEFP r =? "49")%string.

(** What the loader makes of one input row. *)
Definition pop_row (r : Csv.row) : Pop.row :=
  add_pop_change (select_rename (add_fips r)).

(** [pd.read_csv]: the file's rows under a fresh index, or the reader's
    failure.  [read_table] is the file system seen through the parser. *)
Definition read_csv (read_table : string -> result (list Csv.row))
    (path : string) : result (DataFrame Csv.row) :=
  match read_table path with
  | Ok rs => Ok (range_index rs)
  | Raise e => Raise e
  end.

Definition read_utah_population
    (read_table : string -> result (list Csv.row))
    (csv_path : string) : result (DataFrame Pop.row) :=
  match read_csv read_table csv_path with
  | Raise e => Raise e
  | Ok df =>
      let df := select is_county df in
      let df := assign add_fips df in
      let df := assign select_rename df in
      let df := assign add_pop_change df in
      let df := select is_utah df in
      Ok df
  end.

(** ** The boundary loader

    [load_tiger_counties] talks to the network, to the zip and shapefile
    readers and to the scratch directory.  They are gathered in a
    [World]; the loader runs in a state monad that threads the scratch
    files and records every call it makes, and stops at the first
    exception. *)

(** What [requests.get] returns when it returns. *)
Record Response : Type := mkResponse {
  status_code : Z;
  content : string
}.

(** The members of an archive: name and data. *)
Definition Archive : Type := list (string * string).

(** The scratch files: path and data, latest first. *)
Definition Files : Type := list (string * string).

Inductive action : Type :=
| HttpGet (url : string)
| ZipOpen (data : string)
| ExtractAll (dir : string)
| ReadFile (path : string)
| ToCrs (epsg : Z).

Record World {G : Type} : Type := mkWorld {
  (** [None]: the request raised (no connection, timeout, ...). *)
  http : string -> option Response;
  (** [None]: the data is not a zip archive. *)
  unzip : string -> option Archive;
  (** [None]: no readable layer at that path. *)
  read_layer : Files -> string -> option (list (Shp.row G));
  reproject : Z -> G -> G
}.
Arguments World : clear implicits.

Record State : Type := mkState {
  files : Files;
  trace : list action
}.

Definition M (A : Type) : Type := State -> State * result A.

Definition ret {A} (a : A) : M A := fun s => (s, Ok a).

Definition bind {A B} (c : M A) (k : A -> M B) : M B :=
  fun s =>
    match c s with
    | (s', Ok a) => k a s'
    | (s', Raise e) => (s', Raise e)
    end.

Notation "x <- c ;; k" := (bind c (fun x => k))
  (at level 61, c at next level, right associativity).

(** Record a call; the newest call is last. *)
Definition log (a : action) (s : State) : State :=
  mkState (files s) (trace s ++ [a])%list.

Definition lift {A} (a : action) (e : error) (r : State -> option A) : M A :=
  fun s =>
    match r s with
    | Some v => (log a s, Ok v)
    | None => (log a s, Raise e)
    end.

Definition tiger_url : string :=
  "https://www2.census.gov/geo/tiger/TIGER2023/COUNTY/tl_2023_us_county.zip".

Definition tiger_dir : string := "/tmp/tiger_counties".

Definition tiger_shp : string := "/tmp/tiger_counties/tl_2023_us_county.shp".

Section BoundaryLoader.
Context {G : Type} (w : World G).

(** [requests.get(url)]: raises when no response arrives; a response
    is returned whatever its status. *)
Definition requests_get (url : string) : M Response :=
  lift (HttpGet url) RetrievalError (fun _ => http w url).

(** [zipfile.ZipFile(BytesIO(data))] *)
Definition ZipFile (data : string) : M Archive :=
  lift (ZipOpen data) ExtractionError (fun _ => unzip w data).

(** [z.extractall(dir)]: every member is written under [dir]. *)
Definition extractall (z : Archive) (dir : string) : M unit :=
  fun s =>
    let written :=
      map (fun m => ((dir ++ "/" ++ fst m)%string, snd m)) z in
    (log (ExtractAll dir) (mkState (rev written ++ files s)%list (trace s)),
     Ok tt).

(** [gpd.read_file(path)] *)
Definition read_file (path : string) : M (DataFrame (Shp.row G)) :=
  lift (ReadFile path) ParseError
       (fun s => option_map range_index (read_layer w (files s) path)).

(** Line 47: [gdf['GEOID'].astype(str).str.zfill(5)]. *)
Definition normalize_geoid (c : cell) : string :=
  PyStr.zfill 5 (astype_str c).

Definition set_geoid (r : Shp.row G) : Tiger.row G :=
  Tiger.mk G (Shp.STATEFP r) (normalize_geoid (Shp.GEOID r))
           (Shp.NAME r) (Shp.geometry r).

(** [gdf.to_crs(epsg=...)]: only the geometries change. *)
Definition to_crs (epsg : Z) (gdf : DataFrame (Tiger.row G))
  : M (DataFrame (Tiger.row G)) :=
  fun s =>
    (log (ToCrs epsg) s,
     Ok (assign (fun r => Tiger.mk G (Tiger.STATEFP r) (Tiger.GEOID r)
                            (Tiger.NAME r)
                            (reproject w epsg (Tiger.geometry r))) gdf)).

Definition load_tiger_counties : M (DataFrame (Tiger.row G)) :=
  response <- requests_get tiger_url ;;
  z <- ZipFile (content response) ;;
  _ <- extractall z tiger_dir ;;
  gdf <- read_file tiger_shp ;;
  let gdf := assign set_geoid gdf in
  to_crs 4326 gdf.

End BoundaryLoader.

(** The state in which the script starts. *)
Definition initial : State := mkState [] [].

(** ** Join and sort (the script's top level) *)

Section Join.
Context {G : Type}.

(** Line 107: [TIGER['STATEFP'] == "49"]. *)
Definition in_utah (r : Tiger.row G) : bool :=
  (Tiger.STATEFP r =? "49")%string.

(** The rows of the right frame whose key equals [g], in the right
    frame's order. *)
Definition matches (g : string) (right : DataFrame Pop.row) : list Pop.row :=
  filter (fun p => (Pop.GEOID p =? g)%string) (rows right).

(** One row of the result: the left row, and the right row's columns
    when there is one. *)
Definition join_row (b : Tiger.row G) (m : option Pop.row) : Joined.row G :=
  Joined.mk G (Tiger.STATEFP b) (Tiger.GEOID b) (Tiger.NAME b)
            (Tiger.geometry b)
            (option_map Pop.NAME m) (option_map Pop.STATEFP m)
            (option_map Pop.POP2020 m) (option_map Pop.POP2024 m)
            (option_map Pop.Pop_Change m).

(** The result rows one left row gives: one per match, or one with
    empty right columns when nothing matches. *)
Definition join_rows (b : Tiger.row G) (ms : list Pop.row)
  : list (Joined.row G) :=
  match ms with
  | [] => [join_row b None]
  | _ :: _ => map (fun p => join_row b (Some p)) ms
  end.

(** [left.merge(right, on='GEOID', how='left')]: the left frame's
    order is kept and the result is indexed afresh. *)
Definition merge_left (left : DataFrame (Tiger.row G))
    (right : DataFrame Pop.row) : DataFrame (Joined.row G) :=
  range_index
    (flat_map (fun b => join_rows b (matches (Tiger.GEOID b) right))
              (rows left)).

(** Lines 107-110. *)
Definition utah_gdf (TIGER : DataFrame (Tiger.row G))
    (pop_df : DataFrame Pop.row) : DataFrame (Joined.row G) :=
  let utah_gdf := select in_utah TIGER in
  merge_left utah_gdf pop_df.

(** The boundary columns of a joined row. *)
Definition boundary_of (j : Joined.row G) : Tiger.row G :=
  Tiger.mk G (Joined.STATEFP_x j) (Joined.GEOID j) (Joined.NAME_x j)
           (Joined.geometry j).

End Join.

(** Line 163. *)
Definition plot_df (pop_df : DataFrame Pop.row) : DataFrame Pop.row :=
  sort_values_desc Pop.POP2024 pop_df.

(** ** Notions used in the statements *)

(** How many result rows the merge makes of one left row with matches
    [ms]. *)
Definition fanout (ms : list Pop.row) : nat := Nat.max 1 (List.length ms).

Section Orders.
Context {R : Type} (key : R -> Z).

Definition ascending (a b : nat * R) : Prop := key (snd a) <= key (snd b).
Definition descending (a b : nat * R) : Prop := key (snd a) >= key (snd b).
End Orders.

(** The same world with every response carrying status [code]. *)
Definition with_status {G} (code : Z) (w : World G) : World G :=
  mkWorld G
    (fun url => option_map (fun r => mkResponse code (content r)) (http w url))
    (unzip w) (read_layer w) (reproject w).

(** What is checked of the identifier of county [n] of state 49. *)
Definition geoid_checks (n : nat) : bool :=
  let g := ("49" ++ PyStr.zfill 3 (PyStr.str (Z.of_nat n)))%string in
  ((String.length g =? 5)%nat && PyStr.all_digits g &&
   (normalize_geoid (CStr g) =? g)%string &&
   (normalize_geoid (CInt (49000 + Z.of_nat n)) =? g)%string)%bool.

(** ** Sample data

    The scenario of the spec's section 8, with rows around it that the
    filters must drop. *)

Definition demo_csv : list Csv.row :=
  [ Csv.mk 40 49 0 "Utah" 3271616 3503613;
    Csv.mk 50 49 1 "Beaver County" 10000 10500;
    Csv.mk 50 4 1 "Apache County" 66000 65000;
    Csv.mk 50 49 5 "Cache County" 5000 4800 ].

Definition csv_path : string := "DataPop.csv".

(** A directory that holds [rs] as [DataPop.csv] and nothing else. *)
Definition table_of (rs : list Csv.row) (path : string)
  : result (list Csv.row) :=
  if (path =? csv_path)%string then Ok rs else Raise MissingFileError.

Definition demo_table : string -> result (list Csv.row) := table_of demo_csv.

Definition beaver : Pop.row :=
  Pop.mk "Beaver County" "49001" "49" 10000 10500 500.

Definition cache : Pop.row :=
  Pop.mk "Cache County" "49005" "49" 5000 4800 (-200).

Definition demo_pop : DataFrame Pop.row := [ (1%nat, beaver); (3%nat, cache) ].

(** A county row whose estimates are int64 values far apart. *)
Definition overflow_csv : list Csv.row :=
  [ Csv.mk 50 49 1 "Beaver County" 1 (-9223372036854775808) ].

(** A county row whose county code has four digits. *)
Definition wide_csv : list Csv.row :=
  [ Csv.mk 50 49 1000 "Beaver County" 10000 10500 ].

(** Geometries stand for themselves in the samples: a number each. *)
Definition demo_layer : list (Shp.row nat) :=
  [ Shp.mk nat "04" (CInt 4001) "Apache" 7%nat;
    Shp.mk nat "49" (CStr "49001") "Beaver" 11%nat;
    Shp.mk nat "49" (CStr "49003") "Box Elder" 12%nat;
    Shp.mk nat "49" (CInt 49005) "Cache" 13%nat ].

Definition box_elder : Tiger.row nat :=
  Tiger.mk nat "49" "49003" "Box Elder" 12%nat.

Definition demo_tiger : DataFrame (Tiger.row nat) :=
  range_index
    [ Tiger.mk nat "04" "04001" "Apache" 7%nat;
      Tiger.mk nat "49" "49001" "Beaver" 11%nat;
      box_elder;
      Tiger.mk nat "49" "49005" "Cache" 13%nat ].

Definition has_file (fs : Files) (path : string) : bool :=
  existsb (fun f => (fst f =? path)%string) fs.

(** A world in which the server answers with status [code] and [body],
    data starting with [PK] counts as an archive, and the extracted
    layer is [demo_layer]. *)
Definition demo_world (code : Z) (body : string) : World nat :=
  mkWorld nat
    (fun url => if (url =? tiger_url)%string
                then Some (mkResponse code body) else None)
    (fun data => if (PyStr.prefix 2 data =? "PK")%string
                 then Some [("tl_2023_us_county.shp", data)] else None)
    (fun fs path => if has_file fs path then Some demo_layer else None)
    (fun _ g => g).

(** No network. *)
Definition offline_world : World nat :=
  mkWorld nat (fun _ => None) (fun _ => None) (fun _ _ => None) (fun _ g => g).

Definition not_found_page : string :=
  "<html><body>404 Not Found</body></html>".

(** ** Further notions used in the statements *)

(** The number a decimal text denotes: digits, after a [-] or not;
    [None] for any other text. *)
Definition int_of (s : string) : option Z :=
  option_map Z.of_int (NilZero.int_of_string s).

(** The input rows the population loader keeps. *)
Definition utah_county (c : Csv.row) : bool :=
  is_county c && (Csv.STATE c =? 49).

(** [f] holds of the [k] integers from [z] on. *)
Fixpoint all_from (f : Z -> bool) (z : Z) (k : nat) : bool :=
  match k with
  | O => true
  | S k' => f z && all_from f (z + 1) k'
  end.

(** What is checked of the identifier made of the number [z]. *)
Definition five_digits (z : Z) : bool :=
  let g := normalize_geoid (CInt z) in
  ((String.length g =? 5)%nat && PyStr.all_digits g)%bool.

(** What the boundary loader makes of one row of the layer. *)
Definition tiger_row {G} (w : World G) (r : Shp.row G) : Tiger.row G :=
  Tiger.mk G (Shp.STATEFP r) (normalize_geoid (Shp.GEOID r)) (Shp.NAME r)
           (reproject w 4326 (Shp.geometry r)).

(** What extracting [z] adds to the scratch files, latest first. *)
Definition extracted (z : Archive) : Files :=
  rev (map (fun m => ((tiger_dir ++ "/" ++ fst m)%string, snd m)) z).

(** A value of the signed 64-bit range. *)
Definition int64_cell (z : Z) : bool :=
  (Int64.min_int <=? z) && (z <=? Int64.max_int).

(** Every cell of the two estimate columns is in the signed 64-bit
    range.  [read_csv] then types both columns int64; one cell beyond
    the range makes it type the whole column otherwise, and line 82 no
    longer computes in int64. *)
Definition int64_estimates (csv : list Csv.row) : bool :=
  forallb (fun c => int64_cell (Csv.POPESTIMATE2020 c) &&
                    int64_cell (Csv.POPESTIMATE2024 c)) csv.

(** An integer that a float64 holds exactly.  The merge turns the
    population columns into float64 as soon as one boundary row has no
    match; up to 2^53 in magnitude the value is the same number. *)
Definition float_exact (z : Z) : bool := (- 2 ^ 53 <=? z) && (z <=? 2 ^ 53).

Definition float_exact_pop (p : Pop.row) : bool :=
  float_exact (Pop.POP2020 p) && float_exact (Pop.POP2024 p) &&
  float_exact (Pop.Pop_Change p).


(** The joined row of Cache County in the samples. *)
Definition cache_joined : Joined.row nat :=
  join_row (Tiger.mk nat "49" "49005" "Cache" 13%nat) (Some cache).

(** * Properties *)

(** ** The samples run *)

Lemma demo_pop_loaded :
  read_utah_population demo_table csv_path = Ok demo_pop.
Proof. reflexivity. Qed.

Lemma demo_missing_file :
  read_utah_population demo_table "Other.csv" = Raise MissingFileError.
Proof. reflexivity. Qed.

Lemma demo_utah_gdf :
  rows (utah_gdf demo_tiger demo_pop) =
  [ Joined.mk nat "49" "49001" "Beaver" 11%nat
      (Some "Beaver County") (Some "49") (Some 10000) (Some 10500) (Some 500);
    Joined.mk nat "49" "49003" "Box Elder" 12%nat None None None None None;
    Joined.mk nat "49" "49005" "Cache" 13%nat
      (Some "Cache County") (Some "49") (Some 5000) (Some 4800)
      (Some (-200)) ].
Proof. reflexivity. Qed.

Lemma demo_plot_df : plot_df demo_pop = [ (1%nat, beaver); (3%nat, cache) ].
Proof. reflexivity. Qed.

(** The spec's example of a falling population: 10,000 then 9,500. *)
Lemma demo_falling :
  Pop.Pop_Change (pop_row (Csv.mk 50 49 1 "Beaver County" 10000 9500)) = -500.
Proof. reflexivity. Qed.

Lemma demo_load :
  load_tiger_counties (demo_world 200 "PK..") initial =
  (mkState [("/tmp/tiger_counties/tl_2023_us_county.shp", "PK..")]
           [HttpGet tiger_url; ZipOpen "PK.."; ExtractAll tiger_dir;
            ReadFile tiger_shp; ToCrs 4326],
   Ok demo_tiger).
Proof. reflexivity. Qed.

(** ** Python strings *)

Lemma length_zeros n : String.length (PyStr.zeros n) = n.
Proof. induction n; simpl; congruence. Qed.

Lemma length_append (s t : string) :
  String.length (s ++ t) = (String.length s + String.length t)%nat.
Proof. induction s; simpl; congruence. Qed.

(** [zfill] pads and never cuts. *)
Lemma length_zfill w s :
  String.length (PyStr.zfill w s) = Nat.max w (String.length s).
Proof.
  unfold PyStr.zfill.
  destruct (Nat.leb_spec w (String.length s)) as [Hle | Hlt].
  - lia.
  - destruct s as [| c rest]; simpl in *.
    + rewrite length_zeros. lia.
    + destruct (PyStr.is_sign c); simpl;
        rewrite length_append, length_zeros; simpl; lia.
Qed.

Lemma zfill_long w s : (w <= String.length s)%nat -> PyStr.zfill w s = s.
Proof.
  intros H. unfold PyStr.zfill.
  now destruct (Nat.leb_spec w (String.length s)); [| lia].
Qed.

Lemma to_int_proper z :
  Z.to_int z <> Decimal.Pos Decimal.Nil /\
  Z.to_int z <> Decimal.Neg Decimal.Nil.
Proof.
  destruct z as [| p | p]; simpl; split; try discriminate;
    intros [= H]; exact (Unsigned.to_uint_nonnil p H).
Qed.

(** Different integers print differently. *)
Lemma str_inj a b : PyStr.str a = PyStr.str b -> a = b.
Proof.
  unfold PyStr.str. intros H.
  destruct (to_int_proper a) as [Ha1 Ha2], (to_int_proper b) as [Hb1 Hb2].
  pose proof (NilZero.isi _ Ha1 Ha2) as Ia.
  pose proof (NilZero.isi _ Hb1 Hb2) as Ib.
  rewrite H, Ib in Ia. injection Ia as E.
  rewrite <- (DecimalZ.of_to a), <- (DecimalZ.of_to b). now rewrite E.
Qed.

(** Only state code 49 gives the text ["49"]. *)
Lemma statefp_49 z : PyStr.zfill 2 (PyStr.str z) = "49" <-> z = 49.
Proof.
  split; [| intros ->; reflexivity].
  intros H.
  destruct (Nat.leb_spec 2 (String.length (PyStr.str z))) as [Hle | Hlt].
  - rewrite zfill_long in H by assumption.
    apply str_inj. exact H.
  - exfalso. revert H Hlt. unfold PyStr.zfill.
    destruct (PyStr.str z) as [| c [| c' rest]]; simpl; try lia.
    + discriminate.
    + intros H _. destruct (PyStr.is_sign c) eqn:E.
      * injection H as -> _. discriminate E.
      * discriminate H.
Qed.

Lemma geoid_checks_all : forallb geoid_checks (seq 0 1000) = true.
Proof. vm_compute. reflexivity. Qed.

(** The identifier of a county of state 49 with a code of at most three
    digits. *)
Lemma county_geoid (c : Z) :
  0 <= c <= 999 ->
  let g := ("49" ++ PyStr.zfill 3 (PyStr.str c))%string in
  String.length g = 5%nat /\ PyStr.all_digits g = true /\
  normalize_geoid (CStr g) = g /\ normalize_geoid (CInt (49000 + c)) = g.
Proof.
  intros Hc.
  pose proof geoid_checks_all as H.
  rewrite forallb_forall in H.
  specialize (H (Z.to_nat c)).
  rewrite in_seq in H. specialize (H ltac:(lia)).
  unfold geoid_checks in H. rewrite Z2Nat.id in H by lia.
  cbv zeta.
  apply andb_prop in H as [H H4]. apply andb_prop in H as [H H3].
  apply andb_prop in H as [H1 H2].
  apply Nat.eqb_eq in H1. apply String.eqb_eq in H3, H4.
  auto.
Qed.

(** The boundary loader's identifier has five characters or more. *)
Lemma normalize_geoid_length c :
  (5 <= String.length (normalize_geoid c))%nat.
Proof. unfold normalize_geoid. rewrite length_zfill. lia. Qed.

(** ** int64 *)

Lemma wrap_in_range z : Int64.in_range z -> Int64.wrap z = z.
Proof.
  unfold Int64.in_range, Int64.min_int, Int64.max_int, Int64.wrap.
  intros H. rewrite Z.mod_small by lia. lia.
Qed.

Lemma wrap_range z : Int64.in_range (Int64.wrap z).
Proof.
  unfold Int64.in_range, Int64.min_int, Int64.max_int, Int64.wrap.
  pose proof (Z.mod_pos_bound (z + 2 ^ 63) (2 ^ 64) ltac:(lia)). lia.
Qed.

(** The difference of two non-negative int64 values fits. *)
Lemma sub_nonneg a b :
  0 <= a -> 0 <= b -> Int64.in_range a -> Int64.in_range b ->
  Int64.sub a b = a - b.
Proof.
  unfold Int64.sub. intros Ha Hb Ra Rb. apply wrap_in_range.
  unfold Int64.in_range, Int64.min_int, Int64.max_int in *. lia.
Qed.

Lemma int64_cell_range z : int64_cell z = true <-> Int64.in_range z.
Proof.
  unfold int64_cell, Int64.in_range.
  rewrite andb_true_iff, !Z.leb_le. reflexivity.
Qed.

(** In a file with int64 estimate columns every estimate is in range. *)
Lemma int64_estimates_cells csv c :
  int64_estimates csv = true -> In c csv ->
  Int64.in_range (Csv.POPESTIMATE2020 c) /\
  Int64.in_range (Csv.POPESTIMATE2024 c).
Proof.
  unfold int64_estimates. rewrite forallb_forall. intros H Hc.
  specialize (H c Hc). apply andb_prop in H as [H0 H4].
  now rewrite <- !int64_cell_range.
Qed.

(** ** Frames *)

Lemma In_combine_seq {R} (l : list R) : forall start i r,
  In (i, r) (combine (seq start (List.length l)) l) <->
  (start <= i)%nat /\ nth_error l (i - start) = Some r.
Proof.
  induction l as [| x l IH]; intros start i r; simpl.
  - split; [tauto |]. intros [_ H]. now destruct (i - start)%nat.
  - rewrite IH. split.
    + intros [[= <- <-] | [Hle Hn]].
      * split; [lia |]. now rewrite Nat.sub_diag.
      * split; [lia |].
        replace (i - start)%nat with (S (i - S start)) by lia. exact Hn.
    + intros [Hle Hn].
      destruct (Nat.eq_dec i start) as [-> | Hne].
      * left. rewrite Nat.sub_diag in Hn. simpl in Hn. congruence.
      * right. split; [lia |].
        replace (i - start)%nat with (S (i - S start)) in Hn by lia.
        exact Hn.
Qed.

(** Under a fresh index the label of a row is its position. *)
Lemma In_range_index {R} (l : list R) i r :
  In (i, r) (range_index l) <-> nth_error l i = Some r.
Proof.
  unfold range_index. rewrite In_combine_seq, Nat.sub_0_r.
  split; [tauto | split; [lia | assumption]].
Qed.

Lemma rows_combine_seq {R} (l : list R) start :
  map snd (combine (seq start (List.length l)) l) = l.
Proof.
  revert start.
  induction l as [| x l IH]; intros start; simpl; [| rewrite IH]; reflexivity.
Qed.

Lemma rows_range_index {R} (l : list R) : rows (range_index l) = l.
Proof. apply rows_combine_seq. Qed.

Lemma length_rows {R} (df : DataFrame R) :
  List.length (rows df) = List.length df.
Proof. apply length_map. Qed.

Lemma In_select {R} (mask : R -> bool) (df : DataFrame R) i r :
  In (i, r) (select mask df) <-> In (i, r) df /\ mask r = true.
Proof. unfold select. rewrite filter_In. reflexivity. Qed.

Lemma In_assign {R S} (f : R -> S) (df : DataFrame R) i s :
  In (i, s) (assign f df) <-> exists r, In (i, r) df /\ s = f r.
Proof.
  unfold assign. rewrite in_map_iff. split.
  - intros [[j r] [[= <- <-] H]]. now exists r.
  - intros [r [H ->]]. now exists (i, r).
Qed.

Lemma In_index {R} (df : DataFrame R) i :
  In i (index df) <-> exists r, In (i, r) df.
Proof.
  unfold index. rewrite in_map_iff. split.
  - intros [[j r] [<- H]]. now exists r.
  - intros [r H]. now exists (i, r).
Qed.

Lemma In_rows {R} (df : DataFrame R) r :
  In r (rows df) <-> exists i, In (i, r) df.
Proof.
  unfold rows. rewrite in_map_iff. split.
  - intros [[i r'] [<- H]]. now exists i.
  - intros [i H]. now exists (i, r).
Qed.

(** ** The population loader *)

Lemma is_county_iff c : is_county c = true <-> Csv.SUMLEV c = 50.
Proof. unfold is_county. apply Z.eqb_eq. Qed.

Lemma is_utah_pop_row c : is_utah (pop_row c) = true <-> Csv.STATE c = 49.
Proof.
  unfold is_utah, pop_row. simpl.
  rewrite String.eqb_eq. apply statefp_49.
Qed.

Lemma loader_reads read_table path out :
  read_utah_population read_table path = Ok out ->
  exists csv, read_table path = Ok csv.
Proof.
  unfold read_utah_population, read_csv.
  destruct (read_table path) as [csv | e]; [eauto | discriminate].
Qed.

(** The loader, row by row: the output row labelled [i] is what
    [pop_row] makes of the input row at position [i], and it is there
    when and only when that row is a county row of state 49. *)
Lemma loader_rows read_table path csv out :
  read_table path = Ok csv ->
  read_utah_population read_table path = Ok out ->
  forall i r,
    In (i, r) out <->
    exists c, nth_error csv i = Some c /\ Csv.SUMLEV c = 50 /\
              Csv.STATE c = 49 /\ r = pop_row c.
Proof.
  intros Hcsv Hout i r.
  unfold read_utah_population, read_csv in Hout. rewrite Hcsv in Hout.
  injection Hout as <-.
  rewrite In_select. split.
  - intros [Hin Hutah].
    apply In_assign in Hin as [s [Hin ->]].
    apply In_assign in Hin as [f [Hin ->]].
    apply In_assign in Hin as [c [Hin ->]].
    apply In_select in Hin as [Hin Hcounty].
    apply In_range_index in Hin.
    exists c. repeat split; try assumption.
    + now apply is_county_iff.
    + now apply is_utah_pop_row.
  - intros [c [Hn [Hs [Hst ->]]]]. split.
    + apply In_assign. exists (select_rename (add_fips c)).
      split; [| reflexivity].
      apply In_assign. exists (add_fips c). split; [| reflexivity].
      apply In_assign. exists c. split; [| reflexivity].
      apply In_select. split.
      * now apply In_range_index.
      * now apply is_county_iff.
    + now apply is_utah_pop_row.
Qed.

(** The change column is the int64 difference (of int64 columns). *)
Lemma pop_change_int64 read_table path out i r :
  read_utah_population read_table path = Ok out ->
  In (i, r) out ->
  Pop.Pop_Change r = Int64.wrap (Pop.POP2024 r - Pop.POP2020 r).
Proof.
  intros Hout Hin.
  destruct (loader_reads _ _ _ Hout) as [csv Hcsv].
  destruct (proj1 (loader_rows _ _ _ _ Hcsv Hout i r) Hin)
    as [c [_ [_ [_ ->]]]].
  reflexivity.
Qed.

(** C2, as stated, fails: a county row with estimates 1 (2020) and
    -9223372036854775808 (2024), both int64 values in a file whose
    estimate columns hold nothing else, is retained, and its
    [Pop_Change] is 9223372036854775807: positive although the 2024
    estimate is the smaller one, and not the exact difference. *)
Lemma pop_change_overflow :
  int64_estimates overflow_csv = true /\
  exists r,
    read_utah_population (table_of overflow_csv) csv_path = Ok [(0%nat, r)] /\
    Int64.in_range (Pop.POP2020 r) /\ Int64.in_range (Pop.POP2024 r) /\
    Pop.POP2024 r < Pop.POP2020 r /\
    0 < Pop.Pop_Change r /\
    Pop.Pop_Change r <> Pop.POP2024 r - Pop.POP2020 r.
Proof.
  split; [reflexivity |].
  eexists. split; [reflexivity |].
  unfold Int64.in_range, Int64.min_int, Int64.max_int. simpl.
  repeat split; try lia; discriminate.
Qed.

(** C2, amended: when every cell of the two estimate columns of the
    file is in the signed 64-bit range, then for every row the
    population loader retains whose exact difference of the two
    estimates fits that range too, [Pop_Change] equals the 2024 estimate
    minus the 2020 estimate exactly, sign included; the two estimates
    are those of the input row with the same label. *)
Theorem pop_change_exact read_table path csv out i r :
  read_table path = Ok csv ->
  int64_estimates csv = true ->
  read_utah_population read_table path = Ok out ->
  In (i, r) out ->
  Int64.in_range (Pop.POP2024 r - Pop.POP2020 r) ->
  Pop.Pop_Change r = Pop.POP2024 r - Pop.POP2020 r /\
  Int64.in_range (Pop.POP2020 r) /\ Int64.in_range (Pop.POP2024 r) /\
  exists c, nth_error csv i = Some c /\
            Pop.POP2020 r = Csv.POPESTIMATE2020 c /\
            Pop.POP2024 r = Csv.POPESTIMATE2024 c.
Proof.
  intros Hcsv Htyped Hout Hin Hr.
  split.
  - rewrite (pop_change_int64 _ _ _ _ _ Hout Hin). now apply wrap_in_range.
  - apply (loader_rows _ _ _ _ Hcsv Hout) in Hin as [c [Hn [_ [_ ->]]]].
    destruct (int64_estimates_cells _ _ Htyped (nth_error_In _ _ Hn))
      as [R0 R4].
    split; [exact R0 |]. split; [exact R4 |]. now exists c.
Qed.

Lemma pop_change_exact_witness :
  Pop.Pop_Change cache = Pop.POP2024 cache - Pop.POP2020 cache /\
  Int64.in_range (Pop.POP2020 cache) /\ Int64.in_range (Pop.POP2024 cache) /\
  exists c, nth_error demo_csv 3 = Some c /\
            Pop.POP2020 cache = Csv.POPESTIMATE2020 c /\
            Pop.POP2024 cache = Csv.POPESTIMATE2024 c.
Proof.
  apply (pop_change_exact demo_table csv_path demo_csv demo_pop 3 cache).
  - reflexivity.
  - reflexivity.
  - reflexivity.
  - right. left. reflexivity.
  - unfold Int64.in_range, Int64.min_int, Int64.max_int. simpl. lia.
Defined.

(** With int64 columns and non-negative estimates, as populations are,
    the difference always fits. *)
Lemma pop_change_nonneg read_table path csv out i r :
  read_table path = Ok csv ->
  int64_estimates csv = true ->
  read_utah_population read_table path = Ok out ->
  In (i, r) out ->
  0 <= Pop.POP2020 r -> 0 <= Pop.POP2024 r ->
  Pop.Pop_Change r = Pop.POP2024 r - Pop.POP2020 r.
Proof.
  intros Hcsv Htyped Hout Hin H0 H4.
  rewrite (pop_change_int64 _ _ _ _ _ Hout Hin).
  apply (loader_rows _ _ _ _ Hcsv Hout) in Hin as [c [Hn [_ [_ ->]]]].
  destruct (int64_estimates_cells _ _ Htyped (nth_error_In _ _ Hn))
    as [R0 R4].
  now apply sub_nonneg.
Qed.

(** C3: no input row whose [SUMLEV] differs from 50 is in the output of
    the population loader, and every output row comes from an input row
    (the one with its label) whose [SUMLEV] is 50. *)
Theorem sumlev_filter read_table path csv out :
  read_table path = Ok csv ->
  read_utah_population read_table path = Ok out ->
  (forall i c, nth_error csv i = Some c -> Csv.SUMLEV c <> 50 ->
               ~ In i (index out)) /\
  (forall i r, In (i, r) out ->
               exists c, nth_error csv i = Some c /\ Csv.SUMLEV c = 50 /\
                         r = pop_row c).
Proof.
  intros Hcsv Hout. split.
  - intros i c Hn Hs Hin.
    apply In_index in Hin as [r Hin].
    apply (loader_rows _ _ _ _ Hcsv Hout) in Hin as [c' [Hn' [Hs' _]]].
    congruence.
  - intros i r Hin.
    apply (loader_rows _ _ _ _ Hcsv Hout) in Hin as [c [Hn [Hs [_ Hr]]]].
    eauto.
Qed.

Lemma sumlev_filter_witness :
  (forall i c, nth_error demo_csv i = Some c -> Csv.SUMLEV c <> 50 ->
               ~ In i (index demo_pop)) /\
  (forall i r, In (i, r) demo_pop ->
               exists c, nth_error demo_csv i = Some c /\
                         Csv.SUMLEV c = 50 /\ r = pop_row c).
Proof.
  apply (sumlev_filter demo_table csv_path demo_csv demo_pop); reflexivity.
Defined.

(** C4, as stated, fails: the county row with state code 49 and county
    code 1000 is retained with [GEOID] ["491000"], six characters:
    [zfill] pads and never cuts. *)
Lemma geoid_too_long :
  exists r,
    read_utah_population (table_of wide_csv) csv_path = Ok [(0%nat, r)] /\
    Pop.GEOID r = "491000" /\ String.length (Pop.GEOID r) <> 5%nat.
Proof.
  eexists. split; [reflexivity |]. split; [reflexivity | discriminate].
Qed.

(** C4, amended: for every row the population loader retains whose
    county code lies between 0 and 999, [GEOID] is the state code padded
    with zeros to 2 characters followed by the county code padded to 3,
    has exactly 5 characters, all of them digits, and is what the
    boundary loader's normalisation gives for the same code: it leaves
    the text unchanged, and produces it from the number
    1000 * state + county. *)
Theorem geoid_format read_table path csv out i r c :
  read_table path = Ok csv ->
  read_utah_population read_table path = Ok out ->
  In (i, r) out ->
  nth_error csv i = Some c ->
  0 <= Csv.COUNTY c <= 999 ->
  Pop.GEOID r = (PyStr.zfill 2 (PyStr.str (Csv.STATE c)) ++
                 PyStr.zfill 3 (PyStr.str (Csv.COUNTY c)))%string /\
  String.length (Pop.GEOID r) = 5%nat /\
  PyStr.all_digits (Pop.GEOID r) = true /\
  normalize_geoid (CStr (Pop.GEOID r)) = Pop.GEOID r /\
  normalize_geoid (CInt (1000 * Csv.STATE c + Csv.COUNTY c)) = Pop.GEOID r.
Proof.
  intros Hcsv Hout Hin Hn Hc.
  apply (loader_rows _ _ _ _ Hcsv Hout) in Hin as [c' [Hn' [_ [Hst ->]]]].
  assert (c' = c) as -> by congruence.
  split; [reflexivity |].
  simpl. unfold astype_int. rewrite Hst.
  change (PyStr.zfill 2 (PyStr.str 49)) with "49".
  replace (1000 * 49 + Csv.COUNTY c) with (49000 + Csv.COUNTY c) by lia.
  exact (county_geoid (Csv.COUNTY c) Hc).
Qed.

Lemma geoid_format_witness :
  Pop.GEOID cache = "49005" /\
  String.length (Pop.GEOID cache) = 5%nat /\
  PyStr.all_digits (Pop.GEOID cache) = true /\
  normalize_geoid (CStr (Pop.GEOID cache)) = Pop.GEOID cache /\
  normalize_geoid (CInt (1000 * 49 + 5)) = Pop.GEOID cache.
Proof.
  apply (geoid_format demo_table csv_path demo_csv demo_pop 3 cache
           (Csv.mk 50 49 5 "Cache County" 5000 4800)).
  - reflexivity.
  - reflexivity.
  - right. left. reflexivity.
  - reflexivity.
  - simpl. lia.
Defined.

(** C5: every row of the population loader's output has [STATEFP] equal
    to ["49"], and no input row with another state code is in the
    output. *)
Theorem state_restriction read_table path csv out :
  read_table path = Ok csv ->
  read_utah_population read_table path = Ok out ->
  (forall i r, In (i, r) out -> Pop.STATEFP r = "49") /\
  (forall i c, nth_error csv i = Some c -> Csv.STATE c <> 49 ->
               ~ In i (index out)).
Proof.
  intros Hcsv Hout. split.
  - intros i r Hin.
    apply (loader_rows _ _ _ _ Hcsv Hout) in Hin as [c [_ [_ [Hst ->]]]].
    simpl. unfold astype_int. now rewrite Hst.
  - intros i c Hn Hs Hin.
    apply In_index in Hin as [r Hin].
    apply (loader_rows _ _ _ _ Hcsv Hout) in Hin as [c' [Hn' [_ [Hst _]]]].
    congruence.
Qed.

Lemma state_restriction_witness :
  (forall i r, In (i, r) demo_pop -> Pop.STATEFP r = "49") /\
  (forall i c, nth_error demo_csv i = Some c -> Csv.STATE c <> 49 ->
               ~ In i (index demo_pop)).
Proof.
  apply (state_restriction demo_table csv_path demo_csv demo_pop);
    reflexivity.
Defined.

(** C9: in every row of the population loader's output, [STATEFP] is
    the first two characters of [GEOID]. *)
Theorem statefp_prefix_of_geoid read_table path out i r :
  read_utah_population read_table path = Ok out ->
  In (i, r) out ->
  PyStr.prefix 2 (Pop.GEOID r) = Pop.STATEFP r.
Proof.
  intros Hout Hin.
  destruct (loader_reads _ _ _ Hout) as [csv Hcsv].
  destruct (proj1 (loader_rows _ _ _ _ Hcsv Hout i r) Hin)
    as [c [_ [_ [Hst ->]]]].
  simpl. unfold astype_int. rewrite Hst.
  change (PyStr.zfill 2 (PyStr.str 49)) with "49". reflexivity.
Qed.

Lemma statefp_prefix_of_geoid_witness :
  PyStr.prefix 2 (Pop.GEOID beaver) = Pop.STATEFP beaver.
Proof.
  apply (statefp_prefix_of_geoid demo_table csv_path demo_pop 1 beaver).
  - reflexivity.
  - left. reflexivity.
Defined.

(** Before the state filter the invariant of C9 can fail: a three-digit
    state code makes [STATEFP] three characters long. *)
Lemma statefp_prefix_needs_filter :
  let r := pop_row (Csv.mk 50 100 1 "Nowhere" 1 1) in
  Pop.STATEFP r = "100" /\ PyStr.prefix 2 (Pop.GEOID r) = "10".
Proof. split; reflexivity. Qed.

(** ** The join *)

Section JoinFacts.
Context {G : Type}.
Implicit Types (b : Tiger.row G) (pop : DataFrame Pop.row).

Lemma boundary_of_join_row b m : boundary_of (join_row b m) = b.
Proof. now destruct b. Qed.

Lemma fanout_pos (ms : list Pop.row) : (1 <= fanout ms)%nat.
Proof. unfold fanout. lia. Qed.

Lemma boundary_of_join_rows b ms :
  map boundary_of (join_rows b ms) = repeat b (fanout ms).
Proof.
  unfold fanout. destruct ms as [| p ms]; simpl.
  - now rewrite boundary_of_join_row.
  - rewrite boundary_of_join_row. f_equal.
    induction ms as [| q ms IH]; simpl; [reflexivity |].
    now rewrite boundary_of_join_row, IH.
Qed.

(** A key that occurs once at most matches once at most. *)
Lemma unique_key_matches (ps : list Pop.row) g :
  NoDup (map Pop.GEOID ps) ->
  (List.length (filter (fun p => (Pop.GEOID p =? g)%string) ps) <= 1)%nat.
Proof.
  induction ps as [| p ps IH]; simpl; intros Hnd; [lia |].
  inversion Hnd as [| ? ? Hnotin Hnd']; subst.
  destruct (String.eqb_spec (Pop.GEOID p) g) as [Heq | Hne].
  - simpl.
    assert (filter (fun q => (Pop.GEOID q =? g)%string) ps = []) as ->.
    { clear -Hnotin Heq.
      induction ps as [| q ps IH]; simpl; [reflexivity |].
      simpl in Hnotin.
      destruct (String.eqb_spec (Pop.GEOID q) g) as [Hq | Hq].
      - exfalso. apply Hnotin. left. congruence.
      - apply IH. tauto. }
    simpl. lia.
  - auto.
Qed.

Lemma fanout_unique pop g :
  NoDup (map Pop.GEOID (rows pop)) -> fanout (matches g pop) = 1%nat.
Proof.
  intros Hnd. unfold fanout, matches.
  pose proof (unique_key_matches (rows pop) g Hnd). lia.
Qed.

(** The boundary columns of the result, in order: every left row,
    once for each of its result rows. *)
Lemma merge_left_boundary (gdf : DataFrame (Tiger.row G)) pop :
  map boundary_of (rows (merge_left gdf pop)) =
  flat_map (fun b => repeat b (fanout (matches (Tiger.GEOID b) pop)))
           (rows gdf).
Proof.
  unfold merge_left. rewrite rows_range_index.
  induction (rows gdf) as [| b bs IH]; simpl; [reflexivity |].
  now rewrite map_app, boundary_of_join_rows, IH.
Qed.

Lemma In_merge_left (gdf : DataFrame (Tiger.row G)) pop j :
  In j (rows (merge_left gdf pop)) <->
  exists b, In b (rows gdf) /\
            In j (join_rows b (matches (Tiger.GEOID b) pop)).
Proof.
  unfold merge_left. rewrite rows_range_index. apply in_flat_map.
Qed.

Lemma In_join_rows b ms j :
  In j (join_rows b ms) ->
  exists m, j = join_row b m /\
            match m with Some p => In p ms | None => ms = [] end.
Proof.
  destruct ms as [| p ms].
  - simpl. intros [<- | []]. now exists None.
  - intros Hin.
    change (In j (map (fun q => join_row b (Some q)) (p :: ms))) in Hin.
    apply in_map_iff in Hin as [q [<- Hq]]. now exists (Some q).
Qed.

(** The merge never loses a left row. *)
Lemma merge_left_length (gdf : DataFrame (Tiger.row G)) pop :
  (List.length gdf <= List.length (merge_left gdf pop))%nat.
Proof.
  rewrite <- (length_rows (merge_left gdf pop)), <- (length_rows gdf).
  rewrite <- (length_map boundary_of (rows (merge_left gdf pop))).
  rewrite merge_left_boundary.
  induction (rows gdf) as [| b bs IH]; simpl; [lia |].
  rewrite length_app, repeat_length.
  pose proof (fanout_pos (matches (Tiger.GEOID b) pop)). lia.
Qed.

(** C1: when every [GEOID] occurs once in the population table, the
    joined view has as many rows as the state-filtered boundary set,
    and its boundary columns are that set, row for row: no boundary
    row is dropped and none is duplicated. *)
Theorem join_row_count (TIGER : DataFrame (Tiger.row G)) pop_df :
  NoDup (map Pop.GEOID (rows pop_df)) ->
  List.length (utah_gdf TIGER pop_df) =
    List.length (select in_utah TIGER) /\
  map boundary_of (rows (utah_gdf TIGER pop_df)) =
    rows (select in_utah TIGER).
Proof.
  intros Hnd.
  assert (map boundary_of (rows (utah_gdf TIGER pop_df)) =
          rows (select in_utah TIGER)) as Heq.
  { unfold utah_gdf. rewrite merge_left_boundary.
    induction (rows (select in_utah TIGER)) as [| b bs IH]; simpl;
      [reflexivity |].
    now rewrite fanout_unique, IH. }
  split; [| exact Heq].
  rewrite <- (length_rows (utah_gdf TIGER pop_df)).
  rewrite <- (length_map boundary_of), Heq. apply length_rows.
Qed.

(** C7: a boundary row of state 49 whose [GEOID] no population row
    has is in the joined view with its population columns empty, and
    every joined row with that [GEOID] has [POP2020], [POP2024] and
    [Pop_Change] empty (so none holds 0). *)
Theorem unmatched_row_kept (TIGER : DataFrame (Tiger.row G)) pop_df i b :
  In (i, b) TIGER ->
  Tiger.STATEFP b = "49" ->
  (forall p, In p (rows pop_df) -> Pop.GEOID p <> Tiger.GEOID b) ->
  In (join_row b None) (rows (utah_gdf TIGER pop_df)) /\
  forall j, In j (rows (utah_gdf TIGER pop_df)) ->
            Joined.GEOID j = Tiger.GEOID b ->
            Joined.POP2020 j = None /\ Joined.POP2024 j = None /\
            Joined.Pop_Change j = None.
Proof.
  intros Hin Hst Hno.
  assert (forall g, g = Tiger.GEOID b -> matches g pop_df = []) as Hempty.
  { intros g ->. unfold matches.
    induction (rows pop_df) as [| p ps IH]; simpl; [reflexivity |].
    destruct (String.eqb_spec (Pop.GEOID p) (Tiger.GEOID b)) as [Heq | _].
    - exfalso. apply (Hno p); [now left | exact Heq].
    - apply IH. intros q Hq. apply Hno. now right. }
  split.
  - apply In_merge_left. exists b. split.
    + apply In_rows. exists i. apply filter_In. split; [exact Hin |].
      simpl. unfold in_utah. now apply String.eqb_eq.
    + rewrite Hempty by reflexivity. now left.
  - intros j Hj Hg. apply In_merge_left in Hj as [b' [_ Hj]].
    apply In_join_rows in Hj as [m [-> Hm]].
    simpl in Hg. rewrite Hempty in Hm by exact Hg.
    destruct m as [p |]; [contradiction | now repeat split].
Qed.

(** C10: the merge only adds the population columns.  The boundary
    columns of the joined view are, in order, the state-filtered
    boundary rows (each once per result row it gives), and every
    joined row carries the [GEOID], the geometry and the other
    boundary columns of a filtered boundary row unchanged. *)
Theorem merge_keeps_boundary_columns
    (TIGER : DataFrame (Tiger.row G)) pop_df :
  map boundary_of (rows (utah_gdf TIGER pop_df)) =
    flat_map (fun b => repeat b (fanout (matches (Tiger.GEOID b) pop_df)))
             (rows (select in_utah TIGER)) /\
  forall j, In j (rows (utah_gdf TIGER pop_df)) ->
    exists b, In b (rows (select in_utah TIGER)) /\
              Joined.GEOID j = Tiger.GEOID b /\
              Joined.geometry j = Tiger.geometry b /\
              Joined.STATEFP_x j = Tiger.STATEFP b /\
              Joined.NAME_x j = Tiger.NAME b.
Proof.
  split; [apply merge_left_boundary |].
  intros j Hj. apply In_merge_left in Hj as [b [Hb Hj]].
  apply In_join_rows in Hj as [m [-> _]].
  exists b. now repeat split.
Qed.

End JoinFacts.

Lemma demo_pop_unique : NoDup (map Pop.GEOID (rows demo_pop)).
Proof.
  repeat constructor; simpl; intuition discriminate.
Defined.

Lemma join_row_count_witness :
  List.length (utah_gdf demo_tiger demo_pop) =
    List.length (select in_utah demo_tiger) /\
  map boundary_of (rows (utah_gdf demo_tiger demo_pop)) =
    rows (select in_utah demo_tiger).
Proof.
  apply (join_row_count demo_tiger demo_pop). exact demo_pop_unique.
Defined.

Lemma unmatched_row_kept_witness :
  In (join_row box_elder None) (rows (utah_gdf demo_tiger demo_pop)) /\
  forall j, In j (rows (utah_gdf demo_tiger demo_pop)) ->
            Joined.GEOID j = Tiger.GEOID box_elder ->
            Joined.POP2020 j = None /\ Joined.POP2024 j = None /\
            Joined.Pop_Change j = None.
Proof.
  apply (unmatched_row_kept demo_tiger demo_pop 2 box_elder).
  - right. right. left. reflexivity.
  - reflexivity.
  - intros p [<- | [<- | []]]; discriminate.
Defined.

(** With a key twice in the population table the merge fans out: the
    uniqueness assumed in C1 is needed. *)
Lemma duplicate_key_fans_out :
  List.length (utah_gdf demo_tiger (demo_pop ++ demo_pop)%list) = 5%nat /\
  List.length (select in_utah demo_tiger) = 3%nat.
Proof. split; reflexivity. Qed.

(** ** The sort *)

Section SortFacts.
Context {R : Type} (key : R -> Z).

Lemma insert_perm x (l : DataFrame R) :
  Permutation (insert key x l) (x :: l).
Proof.
  induction l as [| y l IH]; simpl; [reflexivity |].
  destruct (key (snd x) <=? key (snd y)); [reflexivity |].
  rewrite IH. apply perm_swap.
Qed.

Lemma argsort_perm (l : DataFrame R) : Permutation (argsort key l) l.
Proof.
  induction l as [| x l IH]; simpl; [constructor |].
  rewrite insert_perm. now constructor.
Qed.

Lemma insert_sorted x (l : DataFrame R) :
  StronglySorted (ascending key) l ->
  StronglySorted (ascending key) (insert key x l).
Proof.
  induction 1 as [| y l Hl IH Hy]; simpl.
  - repeat constructor.
  - destruct (Z.leb_spec (key (snd x)) (key (snd y))) as [Hle | Hgt].
    + constructor; [now constructor |].
      constructor; [exact Hle |].
      eapply Forall_impl; [| exact Hy].
      unfold ascending. intros; lia.
    + constructor; [exact IH |].
      eapply Permutation_Forall; [symmetry; apply insert_perm |].
      constructor; [unfold ascending; lia | exact Hy].
Qed.

Lemma argsort_sorted (l : DataFrame R) :
  StronglySorted (ascending key) (argsort key l).
Proof.
  induction l as [| x l IH]; simpl; [constructor | now apply insert_sorted].
Qed.

Lemma sorted_snoc (l : DataFrame R) x :
  StronglySorted (descending key) l ->
  Forall (fun y => descending key y x) l ->
  StronglySorted (descending key) (l ++ [x]).
Proof.
  induction 1 as [| y l Hl IH Hy]; simpl; intros Hall.
  - repeat constructor.
  - inversion Hall as [| ? ? Hyx Hall']; subst.
    constructor; [now apply IH |].
    apply Forall_app. split; [exact Hy | now repeat constructor].
Qed.

(** Reversing an ascending frame gives a descending one. *)
Lemma rev_sorted (l : DataFrame R) :
  StronglySorted (ascending key) l ->
  StronglySorted (descending key) (rev l).
Proof.
  induction 1 as [| x l Hl IH Hx]; simpl; [constructor |].
  apply sorted_snoc; [exact IH |].
  apply Forall_rev. eapply Forall_impl; [| exact Hx].
  unfold ascending, descending. intros; lia.
Qed.

Lemma sort_values_desc_sorted (df : DataFrame R) :
  StronglySorted (descending key) (sort_values_desc key df).
Proof. apply rev_sorted, argsort_sorted. Qed.

(** Sorting keeps the rows and their labels. *)
Lemma sort_values_desc_perm (df : DataFrame R) :
  Permutation (sort_values_desc key df) df.
Proof.
  unfold sort_values_desc.
  rewrite <- Permutation_rev, argsort_perm, <- Permutation_rev.
  reflexivity.
Qed.

Lemma sorted_consecutive (l : DataFrame R) :
  StronglySorted (descending key) l ->
  forall n a b, nth_error l n = Some a -> nth_error l (S n) = Some b ->
                descending key a b.
Proof.
  induction 1 as [| x l Hl IH Hx]; intros n a b Ha Hb.
  - now destruct n.
  - destruct n as [| n]; simpl in Ha, Hb.
    + injection Ha as <-.
      rewrite Forall_forall in Hx. apply Hx.
      destruct l; [discriminate | injection Hb as <-; now left].
    + eapply IH; eassumption.
Qed.

End SortFacts.

(** C8: the frame given to the bar chart holds the rows of the
    population loader's output (the same rows under the same labels, in
    another order), and of two consecutive rows the earlier has a
    [POP2024] greater than or equal to the later's. *)
Theorem plot_df_descending (pop_df : DataFrame Pop.row) :
  Permutation (plot_df pop_df) pop_df /\
  forall n a b,
    nth_error (rows (plot_df pop_df)) n = Some a ->
    nth_error (rows (plot_df pop_df)) (S n) = Some b ->
    Pop.POP2024 a >= Pop.POP2024 b.
Proof.
  split; [apply sort_values_desc_perm |].
  intros n a b Ha Hb. unfold rows in Ha, Hb.
  rewrite nth_error_map in Ha, Hb.
  destruct (nth_error (plot_df pop_df) n) as [[i a'] |] eqn:Ea;
    [| discriminate].
  destruct (nth_error (plot_df pop_df) (S n)) as [[k b'] |] eqn:Eb;
    [| discriminate].
  simpl in Ha, Hb. injection Ha as <-. injection Hb as <-.
  exact (sorted_consecutive Pop.POP2024 _
           (sort_values_desc_sorted _ _) _ _ _ Ea Eb).
Qed.

(** An ascending frame comes out reversed. *)
Lemma demo_plot_reversed :
  plot_df [ (3%nat, cache); (1%nat, beaver) ] =
  [ (1%nat, beaver); (3%nat, cache) ].
Proof. reflexivity. Qed.

(** ** The boundary loader *)

Lemma bind_ret_l {A B} (a : A) (k : A -> M B) (s : State) :
  bind (ret a) k s = k a s.
Proof. reflexivity. Qed.

Lemma bind_raise {A B} (c : M A) (k : A -> M B) (s s' : State) (e : error) :
  c s = (s', Raise e) -> bind c k s = (s', Raise e).
Proof. unfold bind. now intros ->. Qed.

(** X16: the loader runs the same whatever the status of the response:
    with every status replaced by any other code it makes the same
    calls and has the same result, from whatever state. *)
Lemma status_ignored {G} (code : Z) (w : World G) (s : State) :
  load_tiger_counties (with_status code w) s = load_tiger_counties w s.
Proof.
  unfold load_tiger_counties, bind, requests_get, lift. simpl.
  destruct (http w tiger_url) as [r |]; reflexivity.
Qed.

(** C6, as stated, fails: the server answers 404 with an error page; the
    loader does not fail with [RetrievalError] but hands the page to the
    zip reader, and it is that reader's failure that ends the run. *)
Lemma error_status_not_checked :
  http (demo_world 404 not_found_page) tiger_url =
    Some (mkResponse 404 not_found_page) /\
  load_tiger_counties (demo_world 404 not_found_page) initial =
    (mkState [] [HttpGet tiger_url; ZipOpen not_found_page],
     Raise ExtractionError) /\
  snd (load_tiger_counties (demo_world 404 not_found_page) initial)
    <> Raise RetrievalError /\
  In (ZipOpen not_found_page)
     (trace (fst (load_tiger_counties (demo_world 404 not_found_page)
                                      initial))).
Proof.
  split; [reflexivity |]. split; [reflexivity |].
  split; [discriminate | simpl; auto].
Qed.

(** A response with an error status whose body is an archive is
    extracted and parsed like any other. *)
Lemma error_status_served :
  load_tiger_counties (demo_world 503 "PK..") initial =
  load_tiger_counties (demo_world 200 "PK..") initial /\
  snd (load_tiger_counties (demo_world 503 "PK..") initial) = Ok demo_tiger.
Proof. split; reflexivity. Qed.

Lemma offline_load :
  load_tiger_counties offline_world initial =
  (mkState [] [HttpGet tiger_url], Raise RetrievalError).
Proof. reflexivity. Qed.

(** C6, amended: when the request itself does not succeed (no response
    arrives), the boundary loader fails with [RetrievalError] and does
    nothing further.  When a response arrives the loader goes on to
    open its body as a zip archive, whatever the status, and does not
    fail with [RetrievalError]. *)
Theorem load_tiger_counties_retrieval {G} (w : World G) :
  match http w tiger_url with
  | None =>
      load_tiger_counties w initial =
      (mkState [] [HttpGet tiger_url], Raise RetrievalError)
  | Some response =>
      (exists rest,
         trace (fst (load_tiger_counties w initial)) =
         HttpGet tiger_url :: ZipOpen (content response) :: rest) /\
      snd (load_tiger_counties w initial) <> Raise RetrievalError
  end.
Proof.
  unfold load_tiger_counties, bind, requests_get, ZipFile, read_file,
    extractall, to_crs, lift.
  destruct (http w tiger_url) as [r |]; [| reflexivity].
  destruct (unzip w (content r)) as [z |]; simpl.
  - destruct (read_layer w _ tiger_shp) as [layer |]; simpl;
      (split; [eexists; reflexivity | discriminate]).
  - split; [eexists; reflexivity | discriminate].
Qed.

(** * Further properties *)

(** ** Padding and the number a text denotes *)

Lemma uint_of_zeros k t :
  NilEmpty.uint_of_string (PyStr.zeros k ++ t) =
  option_map (Nat.iter k Decimal.D0) (NilEmpty.uint_of_string t).
Proof.
  induction k as [| k IH]; simpl.
  - now destruct (NilEmpty.uint_of_string t).
  - rewrite IH. now destruct (NilEmpty.uint_of_string t).
Qed.

Lemma of_uint_zeros k d : Pos.of_uint (Nat.iter k Decimal.D0 d) = Pos.of_uint d.
Proof. induction k as [| k IH]; simpl; auto. Qed.

(** The digits of a positive number: a text that starts with a digit. *)
Lemma digits_shape d :
  d <> Decimal.Nil ->
  exists c rest, NilEmpty.string_of_uint d = String c rest /\
                 PyStr.is_sign c = false /\ Ascii.eqb c "-" = false.
Proof.
  destruct d; [congruence | ..]; intros _; simpl; eauto.
Qed.

Lemma zfill_unsigned w c rest :
  PyStr.is_sign c = false ->
  exists k, PyStr.zfill w (String c rest) = (PyStr.zeros k ++ String c rest)%string.
Proof.
  intros Hc. unfold PyStr.zfill.
  destruct (w <=? String.length (String c rest))%nat.
  - now exists 0%nat.
  - rewrite Hc. eauto.
Qed.

Lemma zfill_signed w rest :
  exists k, PyStr.zfill w (String "-" rest) = String "-" (PyStr.zeros k ++ rest).
Proof.
  unfold PyStr.zfill.
  destruct (w <=? String.length (String "-" rest))%nat.
  - now exists 0%nat.
  - simpl. eauto.
Qed.

(** Reading digits behind [k] zeros. *)
Lemma uint_of_padded k d :
  d <> Decimal.Nil ->
  NilZero.uint_of_string (PyStr.zeros k ++ NilEmpty.string_of_uint d) =
  Some (Nat.iter k Decimal.D0 d).
Proof.
  intros Hd. destruct (digits_shape d Hd) as [c [rest [E _]]].
  assert (NilZero.uint_of_string (PyStr.zeros k ++ NilEmpty.string_of_uint d)
          = NilEmpty.uint_of_string
              (PyStr.zeros k ++ NilEmpty.string_of_uint d)) as ->.
  { rewrite E. now destruct k. }
  now rewrite uint_of_zeros, NilEmpty.usu.
Qed.

Lemma int_of_padded k d :
  d <> Decimal.Nil ->
  int_of (PyStr.zeros k ++ NilEmpty.string_of_uint d) =
  Some (Z.of_N (Pos.of_uint d)).
Proof.
  intros Hd. pose proof (uint_of_padded k d Hd) as Hu.
  destruct (digits_shape d Hd) as [c [rest [E [_ Hm]]]].
  unfold int_of, NilZero.int_of_string.
  destruct (PyStr.zeros k ++ NilEmpty.string_of_uint d)%string
    as [| a s'] eqn:Es.
  - rewrite E in Es. now destruct k.
  - assert (Ascii.eqb a "-" = false) as ->.
    { rewrite E in Es. destruct k; simpl in Es; injection Es as <- _;
        [exact Hm | reflexivity]. }
    rewrite Hu. simpl. unfold Z.of_uint. now rewrite of_uint_zeros.
Qed.

Lemma int_of_neg_padded k d :
  d <> Decimal.Nil ->
  int_of (String "-" (PyStr.zeros k ++ NilEmpty.string_of_uint d)) =
  Some (- Z.of_N (Pos.of_uint d)).
Proof.
  intros Hd. unfold int_of, NilZero.int_of_string.
  rewrite Ascii.eqb_refl, (uint_of_padded k d Hd). simpl.
  unfold Z.of_uint. now rewrite of_uint_zeros.
Qed.

(** The padded text of a number denotes that number. *)
Lemma int_of_zfill w z : int_of (PyStr.zfill w (PyStr.str z)) = Some z.
Proof.
  unfold PyStr.str. destruct z as [| p | p]; simpl.
  - destruct (zfill_unsigned w "0" "" eq_refl) as [k ->].
    change "0" with (NilEmpty.string_of_uint (Decimal.D0 Decimal.Nil)).
    now rewrite int_of_padded.
  - pose proof (DecimalPos.Unsigned.to_uint_nonnil p) as Hd.
    assert (NilZero.string_of_uint (Pos.to_uint p) =
            NilEmpty.string_of_uint (Pos.to_uint p)) as ->
        by now destruct (Pos.to_uint p).
    destruct (digits_shape _ Hd) as [c [rest [E [Hs _]]]].
    rewrite E. destruct (zfill_unsigned w c rest Hs) as [k ->].
    rewrite <- E, int_of_padded by exact Hd.
    now rewrite DecimalPos.Unsigned.of_to.
  - pose proof (DecimalPos.Unsigned.to_uint_nonnil p) as Hd.
    assert (NilZero.string_of_uint (Pos.to_uint p) =
            NilEmpty.string_of_uint (Pos.to_uint p)) as ->
        by now destruct (Pos.to_uint p).
    destruct (zfill_signed w (NilEmpty.string_of_uint (Pos.to_uint p)))
      as [k ->].
    rewrite int_of_neg_padded by exact Hd.
    now rewrite DecimalPos.Unsigned.of_to.
Qed.

Lemma zfill_str_inj w a b :
  PyStr.zfill w (PyStr.str a) = PyStr.zfill w (PyStr.str b) -> a = b.
Proof.
  intros H. pose proof (int_of_zfill w a) as Ha.
  rewrite H, int_of_zfill in Ha. congruence.
Qed.

(** ** More on the population loader *)

Lemma rows_select {R} (mask : R -> bool) (df : DataFrame R) :
  rows (select mask df) = filter mask (rows df).
Proof.
  unfold rows, select.
  induction df as [| [i r] df IH]; simpl; [reflexivity |].
  destruct (mask r); simpl; now rewrite IH.
Qed.

Lemma rows_assign {R S} (f : R -> S) (df : DataFrame R) :
  rows (assign f df) = map f (rows df).
Proof. unfold rows, assign. now rewrite !map_map. Qed.

Lemma index_assign {R S} (f : R -> S) (df : DataFrame R) :
  index (assign f df) = index df.
Proof. unfold index, assign. now rewrite map_map. Qed.

Lemma index_range_index {R} (l : list R) :
  index (range_index l) = seq 0 (List.length l).
Proof.
  unfold index, range_index. generalize 0%nat.
  induction l as [| x l IH]; intros start; simpl; [| rewrite IH]; reflexivity.
Qed.

Lemma filter_map_swap {A B} (f : A -> B) (p : B -> bool) (l : list A) :
  filter p (map f l) = map f (filter (fun x => p (f x)) l).
Proof.
  induction l as [| x l IH]; simpl; [reflexivity |].
  destruct (p (f x)); simpl; now rewrite IH.
Qed.

Lemma filter_filter {A} (p q : A -> bool) (l : list A) :
  filter q (filter p l) = filter (fun x => p x && q x) l.
Proof.
  induction l as [| x l IH]; simpl; [reflexivity |].
  destruct (p x); simpl; [destruct (q x); simpl |]; now rewrite IH.
Qed.

Lemma is_utah_state c : is_utah (pop_row c) = (Csv.STATE c =? 49).
Proof.
  apply eq_true_iff_eq. rewrite is_utah_pop_row. symmetry. apply Z.eqb_eq.
Qed.

(** The rows of [pop_df], in order: what [pop_row] makes of the county
    rows of state 49, in the order of the file. *)
Lemma loader_rows_eq read_table path csv out :
  read_table path = Ok csv ->
  read_utah_population read_table path = Ok out ->
  rows out = map pop_row (filter utah_county csv).
Proof.
  intros Hcsv Hout.
  unfold read_utah_population, read_csv in Hout. rewrite Hcsv in Hout.
  injection Hout as <-.
  rewrite rows_select, !rows_assign, rows_select, rows_range_index.
  rewrite !map_map.
  change (fun x => add_pop_change (select_rename (add_fips x))) with pop_row.
  rewrite filter_map_swap, filter_filter.
  f_equal. apply filter_ext. intros c.
  unfold utah_county. now rewrite is_utah_state.
Qed.

Lemma seq_sorted start n : StronglySorted lt (seq start n).
Proof.
  revert start. induction n as [| n IH]; intros start; simpl; constructor.
  - apply IH.
  - apply Forall_forall. intros x Hx. apply in_seq in Hx. lia.
Qed.

Lemma index_select_sorted {R} (mask : R -> bool) (df : DataFrame R) :
  StronglySorted lt (index df) -> StronglySorted lt (index (select mask df)).
Proof.
  unfold index, select.
  induction df as [| [i r] df IH]; simpl; intros Hs; [constructor |].
  inversion Hs as [| ? ? Hs' Hall]; subst.
  destruct (mask r); simpl; [| auto].
  constructor; [auto |].
  rewrite Forall_forall in *. intros x Hx. apply Hall.
  apply in_map_iff in Hx as [[k q] [<- Hkq]].
  apply filter_In in Hkq as [Hkq _].
  apply in_map_iff. now exists (k, q).
Qed.

Lemma length_select {R} (mask : R -> bool) (df : DataFrame R) :
  (List.length (select mask df) <= List.length df)%nat.
Proof. apply filter_length_le. Qed.

(** X1: when the loader returns, every input row with [SUMLEV] 50 and
    state code 49 is in its output, under the label of its position in
    the file. *)
Theorem loader_complete read_table path csv out i c :
  read_table path = Ok csv ->
  read_utah_population read_table path = Ok out ->
  nth_error csv i = Some c ->
  Csv.SUMLEV c = 50 ->
  Csv.STATE c = 49 ->
  In (i, pop_row c) out.
Proof.
  intros Hcsv Hout Hn Hs Hst.
  apply (loader_rows _ _ _ _ Hcsv Hout). now exists c.
Qed.

(** X2: the loader keeps the order of the file.  The labels of its
    output are strictly increasing, its rows are what [pop_row] makes of
    the county rows of state 49 in file order, and it has no more rows
    than the file. *)
Theorem loader_keeps_order read_table path csv out :
  read_table path = Ok csv ->
  read_utah_population read_table path = Ok out ->
  StronglySorted lt (index out) /\
  rows out = map pop_row (filter utah_county csv) /\
  (List.length out <= List.length csv)%nat.
Proof.
  intros Hcsv Hout. split; [| split].
  - unfold read_utah_population, read_csv in Hout. rewrite Hcsv in Hout.
    injection Hout as <-.
    apply index_select_sorted. rewrite !index_assign.
    apply index_select_sorted. rewrite index_range_index. apply seq_sorted.
  - exact (loader_rows_eq _ _ _ _ Hcsv Hout).
  - rewrite <- (length_rows out), (loader_rows_eq _ _ _ _ Hcsv Hout).
    rewrite length_map. apply filter_length_le.
Qed.

(** X3: selecting and renaming mixes nothing up: an output row has
    the [CTYNAME] of the input row with its label as [NAME] and that
    row's two estimates as [POP2020] and [POP2024]. *)
Theorem loader_columns read_table path csv out i r :
  read_table path = Ok csv ->
  read_utah_population read_table path = Ok out ->
  In (i, r) out ->
  exists c, nth_error csv i = Some c /\
            Pop.NAME r = Csv.CTYNAME c /\
            Pop.POP2020 r = Csv.POPESTIMATE2020 c /\
            Pop.POP2024 r = Csv.POPESTIMATE2024 c.
Proof.
  intros Hcsv Hout Hin.
  apply (loader_rows _ _ _ _ Hcsv Hout) in Hin as [c [Hn [_ [_ ->]]]].
  exists c. now repeat split.
Qed.


(** ** The identifier as a key *)

Lemma append_inj_l (p s t : string) : (p ++ s = p ++ t)%string -> s = t.
Proof. induction p as [| c p IH]; simpl; [auto |]. intros [= H]. auto. Qed.

Lemma pop_row_geoid c :
  Csv.STATE c = 49 ->
  Pop.GEOID (pop_row c) =
  ("49" ++ PyStr.zfill 3 (PyStr.str (Csv.COUNTY c)))%string.
Proof.
  intros Hst. simpl. unfold astype_int. rewrite Hst. reflexivity.
Qed.

(** Among rows of state 49, equal identifiers mean equal county codes. *)
Lemma geoid_inj c c' :
  Csv.STATE c = 49 -> Csv.STATE c' = 49 ->
  Pop.GEOID (pop_row c) = Pop.GEOID (pop_row c') ->
  Csv.COUNTY c = Csv.COUNTY c'.
Proof.
  intros Hc Hc' H. rewrite !pop_row_geoid in H by assumption.
  apply append_inj_l in H. now apply zfill_str_inj in H.
Qed.

Lemma NoDup_map_by {A B C} (f : A -> B) (g : A -> C) (l : list A) :
  (forall x y, In x l -> In y l -> g x = g y -> f x = f y) ->
  NoDup (map f l) -> NoDup (map g l).
Proof.
  induction l as [| a l IH]; simpl; intros Hinj Hnd; [constructor |].
  inversion Hnd as [| ? ? Hnotin Hnd']; subst.
  constructor.
  - intros Hin. apply in_map_iff in Hin as [y [Hy Hyl]].
    apply Hnotin. apply in_map_iff. exists y. split; [| exact Hyl].
    apply Hinj; auto.
  - apply IH; auto.
Qed.

Lemma utah_county_iff c :
  utah_county c = true <-> Csv.SUMLEV c = 50 /\ Csv.STATE c = 49.
Proof.
  unfold utah_county. rewrite andb_true_iff, is_county_iff, Z.eqb_eq.
  reflexivity.
Qed.

(** X6: two rows of the loader's output have the same [GEOID] exactly
    when their input rows have the same county code. *)
Theorem geoid_same_county read_table path csv out i r c k r' c' :
  read_table path = Ok csv ->
  read_utah_population read_table path = Ok out ->
  In (i, r) out -> nth_error csv i = Some c ->
  In (k, r') out -> nth_error csv k = Some c' ->
  (Pop.GEOID r = Pop.GEOID r' <-> Csv.COUNTY c = Csv.COUNTY c').
Proof.
  intros Hcsv Hout Hin Hn Hin' Hn'.
  apply (loader_rows _ _ _ _ Hcsv Hout) in Hin as [d [Hd [_ [Hst ->]]]].
  apply (loader_rows _ _ _ _ Hcsv Hout) in Hin' as [d' [Hd' [_ [Hst' ->]]]].
  assert (d = c) as -> by congruence.
  assert (d' = c') as -> by congruence.
  split.
  - now apply geoid_inj.
  - intros E. rewrite !pop_row_geoid by assumption. now rewrite E.
Qed.

(** X7: when the county rows of state 49 have pairwise distinct
    county codes, the [GEOID]s of the loader's output are pairwise
    distinct. *)
Theorem geoid_unique read_table path csv out :
  read_table path = Ok csv ->
  read_utah_population read_table path = Ok out ->
  NoDup (map Csv.COUNTY (filter utah_county csv)) ->
  NoDup (map Pop.GEOID (rows out)).
Proof.
  intros Hcsv Hout Hnd.
  rewrite (loader_rows_eq _ _ _ _ Hcsv Hout), map_map.
  apply (NoDup_map_by Csv.COUNTY); [| exact Hnd].
  intros x y Hx Hy. apply filter_In in Hx as [_ Hx], Hy as [_ Hy].
  apply utah_county_iff in Hx as [_ Hx], Hy as [_ Hy].
  now apply geoid_inj.
Qed.


(** Without the state filter the identifier is no key: two different
    pairs of codes give the same text. *)
Lemma geoid_collision :
  Fips.GEOID (add_fips (Csv.mk 50 10 1001 "A" 0 0)) =
  Fips.GEOID (add_fips (Csv.mk 50 101 1 "B" 0 0)).
Proof. reflexivity. Qed.

(** ** More on the boundary loader *)

Lemma zfill_idem w s : PyStr.zfill w (PyStr.zfill w s) = PyStr.zfill w s.
Proof. apply zfill_long. rewrite length_zfill. lia. Qed.

(** X9: normalising an identifier twice is normalising it once, and a
    text of five characters or more is left as it is. *)
Theorem normalize_geoid_idem (c : cell) :
  normalize_geoid (CStr (normalize_geoid c)) = normalize_geoid c /\
  (forall s, (5 <= String.length s)%nat -> normalize_geoid (CStr s) = s).
Proof.
  unfold normalize_geoid. simpl. split.
  - apply zfill_idem.
  - intros s Hs. now apply zfill_long.
Qed.

Lemma all_from_spec f z k :
  all_from f z k = true ->
  forall x, z <= x < z + Z.of_nat k -> f x = true.
Proof.
  revert z. induction k as [| k IH]; intros z H x Hx; [lia |].
  simpl in H. apply andb_prop in H as [Hz H].
  destruct (Z.eq_dec x z) as [-> | Hne]; [exact Hz |].
  apply (IH (z + 1) H). lia.
Qed.

Lemma five_digits_all : all_from five_digits 0 (Z.to_nat 100000) = true.
Proof. vm_compute. reflexivity. Qed.

(** X10: a numeric identifier between 0 and 99999 becomes a text of
    exactly five digits that denotes the same number. *)
Theorem normalize_geoid_number (z : Z) :
  0 <= z <= 99999 ->
  String.length (normalize_geoid (CInt z)) = 5%nat /\
  PyStr.all_digits (normalize_geoid (CInt z)) = true /\
  int_of (normalize_geoid (CInt z)) = Some z.
Proof.
  intros Hz.
  pose proof (all_from_spec _ _ _ five_digits_all z) as H.
  rewrite Z2Nat.id in H by lia. specialize (H ltac:(lia)).
  unfold five_digits in H. cbv zeta in H.
  apply andb_prop in H as [H1 H2]. apply Nat.eqb_eq in H1.
  repeat split; [exact H1 | exact H2 |].
  unfold normalize_geoid. simpl. apply int_of_zfill.
Qed.

Section LoaderFacts.
Context {G : Type} (w : World G).

(** The run of the loader from any state, case by case. *)
Lemma load_cases (s : State) :
  load_tiger_counties w s =
  match http w tiger_url with
  | None =>
      (mkState (files s) (trace s ++ [HttpGet tiger_url])%list,
       Raise RetrievalError)
  | Some r =>
      match unzip w (content r) with
      | None =>
          (mkState (files s)
                   (trace s ++ [HttpGet tiger_url; ZipOpen (content r)])%list,
           Raise ExtractionError)
      | Some z =>
          match read_layer w (extracted z ++ files s)%list tiger_shp with
          | None =>
              (mkState (extracted z ++ files s)%list
                       (trace s ++
                        [HttpGet tiger_url; ZipOpen (content r);
                         ExtractAll tiger_dir; ReadFile tiger_shp])%list,
               Raise ParseError)
          | Some layer =>
              (mkState (extracted z ++ files s)%list
                       (trace s ++
                        [HttpGet tiger_url; ZipOpen (content r);
                         ExtractAll tiger_dir; ReadFile tiger_shp;
                         ToCrs 4326])%list,
               Ok (range_index (map (tiger_row w) layer)))
          end
      end
  end.
Proof.
  unfold load_tiger_counties, bind, requests_get, ZipFile, read_file,
    extractall, to_crs, lift, extracted, log.
  destruct (http w tiger_url) as [r |]; [| reflexivity].
  destruct (unzip w (content r)) as [z |]; simpl;
    [| now rewrite <- app_assoc].
  destruct (read_layer w _ tiger_shp) as [layer |]; simpl;
    rewrite <- !app_assoc; simpl; [| reflexivity].
  f_equal. f_equal.
  unfold assign, range_index, tiger_row, set_geoid.
  rewrite !map_map, length_map.
  generalize 0%nat. induction layer as [| x l IH]; intros n; simpl;
    [reflexivity |].
  now rewrite <- IH.
Qed.

End LoaderFacts.

(** X11: when a response arrives whose body the zip reader does not
    open, the boundary loader fails with [ExtractionError] after those
    two calls: nothing is written to the scratch directory and no layer
    is read, from whatever state it starts. *)
Theorem bad_archive_stops_loader {G} (w : World G) (s : State) r :
  http w tiger_url = Some r ->
  unzip w (content r) = None ->
  load_tiger_counties w s =
  (mkState (files s)
           (trace s ++ [HttpGet tiger_url; ZipOpen (content r)])%list,
   Raise ExtractionError).
Proof.
  intros Hr Hz. now rewrite load_cases, Hr, Hz.
Qed.

(** X13: the boundary loader changes only [GEOID] and the geometry.
    When it returns, from whatever state, its frame has as many rows as
    the layer read from the scratch files, and the row labelled [i] has
    the [STATEFP] and the [NAME] of the layer's row at position [i] and
    that row's geometry reprojected to EPSG 4326. *)
Theorem loaded_rows {G} (w : World G) (s : State) gdf i b :
  snd (load_tiger_counties w s) = Ok gdf ->
  In (i, b) gdf ->
  exists layer raw,
    read_layer w (files (fst (load_tiger_counties w s))) tiger_shp
      = Some layer /\
    List.length gdf = List.length layer /\
    nth_error layer i = Some raw /\
    Tiger.STATEFP b = Shp.STATEFP raw /\
    Tiger.NAME b = Shp.NAME raw /\
    Tiger.geometry b = reproject w 4326 (Shp.geometry raw).
Proof.
  rewrite load_cases.
  destruct (http w tiger_url) as [r |]; [| discriminate].
  destruct (unzip w (content r)) as [z |]; [| discriminate].
  destruct (read_layer w (extracted z ++ files s)%list tiger_shp)
    as [layer |] eqn:El; [| discriminate].
  simpl. intros [= <-] Hin.
  apply In_range_index in Hin. rewrite nth_error_map in Hin.
  destruct (nth_error layer i) as [raw |] eqn:En; [| discriminate].
  injection Hin as <-.
  exists layer, raw. repeat split; try assumption.
  unfold range_index. rewrite length_combine, length_seq, length_map. lia.
Qed.

(** ** More on the join *)

Section MoreJoinFacts.
Context {G : Type}.
Implicit Types (b : Tiger.row G) (pop : DataFrame Pop.row).

Lemma In_matches g pop p :
  In p (matches g pop) <-> In p (rows pop) /\ Pop.GEOID p = g.
Proof.
  unfold matches. rewrite filter_In, String.eqb_eq. reflexivity.
Qed.

Lemma matches_nil g pop :
  matches g pop = [] <-> forall p, In p (rows pop) -> Pop.GEOID p <> g.
Proof.
  split.
  - intros H p Hp E.
    assert (In p (matches g pop)) as Hin by now apply In_matches.
    rewrite H in Hin. exact Hin.
  - intros H. destruct (matches g pop) as [| p ms] eqn:E; [reflexivity |].
    exfalso.
    assert (In p (matches g pop)) as Hin by (rewrite E; now left).
    apply In_matches in Hin as [Hp Hg]. exact (H p Hp Hg).
Qed.

(** X17: when the numbers of the population table are at most 2^53 in
    magnitude, a joined row either carries all five population columns
    of a population row with its [GEOID], or has all five empty and no
    population row has its [GEOID]. *)
Theorem joined_values (TIGER : DataFrame (Tiger.row G)) pop_df j :
  forallb float_exact_pop (rows pop_df) = true ->
  In j (rows (utah_gdf TIGER pop_df)) ->
  (exists p, In p (rows pop_df) /\ Pop.GEOID p = Joined.GEOID j /\
             float_exact_pop p = true /\
             Joined.NAME_y j = Some (Pop.NAME p) /\
             Joined.STATEFP_y j = Some (Pop.STATEFP p) /\
             Joined.POP2020 j = Some (Pop.POP2020 p) /\
             Joined.POP2024 j = Some (Pop.POP2024 p) /\
             Joined.Pop_Change j = Some (Pop.Pop_Change p)) \/
  ((forall p, In p (rows pop_df) -> Pop.GEOID p <> Joined.GEOID j) /\
   Joined.NAME_y j = None /\ Joined.STATEFP_y j = None /\
   Joined.POP2020 j = None /\ Joined.POP2024 j = None /\
   Joined.Pop_Change j = None).
Proof.
  intros Hexact Hj. rewrite forallb_forall in Hexact.
  apply In_merge_left in Hj as [b [_ Hj]].
  apply In_join_rows in Hj as [[p |] [-> Hm]].
  - left. exists p. apply In_matches in Hm as [Hp Hg].
    split; [exact Hp |]. split; [exact Hg |].
    split; [exact (Hexact p Hp) | now repeat split].
  - right. split; [now apply matches_nil | now repeat split].
Qed.

(** X18: every joined row has [STATEFP_x] equal to ["49"] and its
    boundary columns are a row of [TIGER]. *)
Theorem joined_rows_in_utah (TIGER : DataFrame (Tiger.row G)) pop_df j :
  In j (rows (utah_gdf TIGER pop_df)) ->
  Joined.STATEFP_x j = "49" /\ exists i, In (i, boundary_of j) TIGER.
Proof.
  intros Hj. apply In_merge_left in Hj as [b [Hb Hj]].
  apply In_join_rows in Hj as [m [-> _]].
  apply In_rows in Hb as [i Hb]. apply In_select in Hb as [Hb Hu].
  split.
  - simpl. now apply String.eqb_eq.
  - exists i. now rewrite boundary_of_join_row.
Qed.

Lemma length_flat_repeat (f : Tiger.row G -> nat) (l : list (Tiger.row G)) :
  (forall b, In b l -> (1 <= f b)%nat) ->
  (List.length l <= List.length (flat_map (fun b => repeat b (f b)) l))%nat /\
  (List.length (flat_map (fun b => repeat b (f b)) l) = List.length l <->
   forall b, In b l -> f b = 1%nat).
Proof.
  induction l as [| a l IH]; intros Hpos; simpl.
  - split; [lia |]. split; [intros _ b [] | reflexivity].
  - rewrite length_app, repeat_length.
    pose proof (Hpos a (or_introl eq_refl)) as Ha.
    destruct (IH (fun b Hb => Hpos b (or_intror Hb))) as [Hle Hiff].
    split; [lia |]. split.
    + intros Hlen b [<- | Hb]; [lia |]. apply Hiff; [lia | exact Hb].
    + intros Hall. rewrite (Hall a (or_introl eq_refl)).
      simpl. f_equal. apply Hiff. intros b Hb. apply Hall. now right.
Qed.

(** X19: the joined view never has fewer rows than the filtered
    boundary set, and has exactly as many if and only if no filtered
    boundary row matches more than one population row. *)
Theorem join_count_general (TIGER : DataFrame (Tiger.row G)) pop_df :
  (List.length (select in_utah TIGER) <=
   List.length (utah_gdf TIGER pop_df))%nat /\
  (List.length (utah_gdf TIGER pop_df) = List.length (select in_utah TIGER)
   <->
   forall b, In b (rows (select in_utah TIGER)) ->
             (List.length (matches (Tiger.GEOID b) pop_df) <= 1)%nat).
Proof.
  rewrite <- (length_rows (utah_gdf TIGER pop_df)).
  rewrite <- (length_rows (select in_utah TIGER)).
  rewrite <- (length_map boundary_of (rows (utah_gdf TIGER pop_df))).
  unfold utah_gdf. rewrite merge_left_boundary.
  destruct (length_flat_repeat
              (fun b => fanout (matches (Tiger.GEOID b) pop_df))
              (rows (select in_utah TIGER))
              (fun b _ => fanout_pos _)) as [Hle Hiff].
  split; [exact Hle |].
  rewrite Hiff. unfold fanout.
  split; intros H b Hb; specialize (H b Hb); lia.
Qed.

(** X20: with an empty population table the joined view is the
    filtered boundary set, each row with empty population columns. *)
Theorem join_without_population (TIGER : DataFrame (Tiger.row G)) :
  rows (utah_gdf TIGER []) =
  map (fun b => join_row b None) (rows (select in_utah TIGER)).
Proof.
  unfold utah_gdf, merge_left. rewrite rows_range_index.
  induction (rows (select in_utah TIGER)) as [| b bs IH]; simpl in *;
    [reflexivity | now f_equal].
Qed.

End MoreJoinFacts.

(** ** More on the sort *)

Section MoreSortFacts.
Context {R : Type} (key : R -> Z).

Lemma sorted_pairs (l : DataFrame R) :
  StronglySorted (descending key) l ->
  forall n m a b, (n < m)%nat ->
                  nth_error l n = Some a -> nth_error l m = Some b ->
                  descending key a b.
Proof.
  induction 1 as [| x l Hl IH Hx]; intros n m a b Hnm Ha Hb.
  - now destruct n.
  - destruct m as [| m]; [lia |]. simpl in Hb.
    destruct n as [| n]; simpl in Ha.
    + injection Ha as <-. rewrite Forall_forall in Hx.
      apply Hx. eapply nth_error_In; eassumption.
    + apply (IH n m); [lia | assumption | assumption].
Qed.

(** Two descending arrangements of the same rows are equal when no two
    rows have the same key. *)
Lemma sorted_perm_unique (l1 : DataFrame R) : forall l2,
  NoDup (map (fun x => key (snd x)) l1) ->
  Permutation l1 l2 ->
  StronglySorted (descending key) l1 ->
  StronglySorted (descending key) l2 ->
  l1 = l2.
Proof.
  induction l1 as [| a l1 IH]; intros l2 Hnd Hp H1 H2.
  - apply Permutation_nil in Hp. now subst.
  - destruct l2 as [| b l2];
      [apply Permutation_sym, Permutation_nil in Hp; discriminate |].
    inversion H1 as [| ? ? H1' Ha]; subst.
    inversion H2 as [| ? ? H2' Hb]; subst.
    inversion Hnd as [| ? ? Hnotin Hnd']; subst.
    rewrite Forall_forall in Ha, Hb.
    assert (a = b) as <-.
    { assert (In a (b :: l2)) as Hin
          by (eapply Permutation_in; [exact Hp | now left]).
      assert (In b (a :: l1)) as Hin'
          by (eapply Permutation_in;
              [apply Permutation_sym; exact Hp | now left]).
      destruct Hin as [E | Hin]; [now symmetry |].
      destruct Hin' as [E | Hin']; [exact E |].
      exfalso. apply Hnotin.
      pose proof (Ha b Hin') as Hab. pose proof (Hb a Hin) as Hba.
      unfold descending in Hab, Hba.
      apply in_map_iff. exists b. split; [lia | exact Hin']. }
    f_equal. apply IH; auto.
    eapply Permutation_cons_inv; exact Hp.
Qed.

End MoreSortFacts.

(** X21: in [plot_df] every earlier row has a [POP2024] greater
    than or equal to that of every later row; the first row has the
    largest [POP2024] of [pop_df]; no row is lost or added. *)
Theorem plot_df_ranks (pop_df : DataFrame Pop.row) :
  (forall n m a b,
     (n < m)%nat ->
     nth_error (rows (plot_df pop_df)) n = Some a ->
     nth_error (rows (plot_df pop_df)) m = Some b ->
     Pop.POP2024 a >= Pop.POP2024 b) /\
  (forall a p,
     nth_error (rows (plot_df pop_df)) 0 = Some a ->
     In p (rows pop_df) ->
     Pop.POP2024 a >= Pop.POP2024 p) /\
  List.length (plot_df pop_df) = List.length pop_df.
Proof.
  assert (forall n m a b,
     (n < m)%nat ->
     nth_error (rows (plot_df pop_df)) n = Some a ->
     nth_error (rows (plot_df pop_df)) m = Some b ->
     Pop.POP2024 a >= Pop.POP2024 b) as Hpairs.
  { intros n m a b Hnm Ha Hb. unfold rows in Ha, Hb.
    rewrite nth_error_map in Ha, Hb.
    destruct (nth_error (plot_df pop_df) n) as [[i a'] |] eqn:Ea;
      [| discriminate].
    destruct (nth_error (plot_df pop_df) m) as [[k b'] |] eqn:Eb;
      [| discriminate].
    simpl in Ha, Hb. injection Ha as <-. injection Hb as <-.
    exact (sorted_pairs Pop.POP2024 _ (sort_values_desc_sorted _ _)
             _ _ _ _ Hnm Ea Eb). }
  split; [exact Hpairs |]. split.
  - intros a p Ha Hp.
    assert (In p (rows (plot_df pop_df))) as Hin.
    { unfold rows. eapply Permutation_in; [| exact Hp].
      apply Permutation_map, Permutation_sym, sort_values_desc_perm. }
    apply In_nth_error in Hin as [m Hm].
    destruct m as [| m]; [rewrite Ha in Hm; injection Hm as <-; lia |].
    apply (Hpairs 0%nat (S m)); [lia | exact Ha | exact Hm].
  - apply Permutation_length, sort_values_desc_perm.
Qed.

(** X22: when the [POP2024] values are pairwise distinct, [plot_df]
    is the only arrangement of [pop_df] in descending order: the result
    does not depend on how the sort treats ties. *)
Theorem plot_df_determined (pop_df l : DataFrame Pop.row) :
  NoDup (map Pop.POP2024 (rows pop_df)) ->
  Permutation l pop_df ->
  StronglySorted (descending Pop.POP2024) l ->
  l = plot_df pop_df.
Proof.
  intros Hnd Hp Hs.
  apply (sorted_perm_unique Pop.POP2024).
  - unfold rows in Hnd. rewrite map_map in Hnd.
    eapply Permutation_NoDup; [| exact Hnd].
    apply Permutation_map, Permutation_sym, Hp.
  - rewrite Hp. apply Permutation_sym, sort_values_desc_perm.
  - exact Hs.
  - apply sort_values_desc_sorted.
Qed.

(** ** Loader and join together *)


(** X24: loader and join together.  When the county rows of state 49
    have pairwise distinct county codes, the joined view has exactly one
    row per filtered boundary row. *)
Theorem pipeline_row_count {G} read_table path csv pop_df
    (TIGER : DataFrame (Tiger.row G)) :
  read_table path = Ok csv ->
  read_utah_population read_table path = Ok pop_df ->
  NoDup (map Csv.COUNTY (filter utah_county csv)) ->
  List.length (utah_gdf TIGER pop_df) = List.length (select in_utah TIGER).
Proof.
  intros Hcsv Hout Hnd.
  assert (NoDup (map Pop.GEOID (rows pop_df))) as Hkey.
  { rewrite (loader_rows_eq _ _ _ _ Hcsv Hout), map_map.
    apply (NoDup_map_by Csv.COUNTY); [| exact Hnd].
    intros x y Hx Hy. apply filter_In in Hx as [_ Hx], Hy as [_ Hy].
    apply utah_county_iff in Hx as [_ Hx], Hy as [_ Hy].
    now apply geoid_inj. }
  rewrite <- (length_rows (utah_gdf TIGER pop_df)).
  rewrite <- (length_rows (select in_utah TIGER)).
  rewrite <- (length_map boundary_of (rows (utah_gdf TIGER pop_df))).
  unfold utah_gdf. rewrite merge_left_boundary. f_equal.
  induction (rows (select in_utah TIGER)) as [| b bs IH]; simpl;
    [reflexivity |].
  now rewrite fanout_unique, IH.
Qed.

(** ** The further properties on the samples *)

Lemma loader_complete_witness :
  In (3%nat, pop_row (Csv.mk 50 49 5 "Cache County" 5000 4800)) demo_pop.
Proof.
  apply (loader_complete demo_table csv_path demo_csv demo_pop 3
           (Csv.mk 50 49 5 "Cache County" 5000 4800)); reflexivity.
Defined.

Lemma loader_keeps_order_witness :
  StronglySorted lt (index demo_pop) /\
  rows demo_pop = map pop_row (filter utah_county demo_csv) /\
  (List.length demo_pop <= List.length demo_csv)%nat.
Proof.
  apply (loader_keeps_order demo_table csv_path demo_csv demo_pop);
    reflexivity.
Defined.

Lemma loader_columns_witness :
  exists c, nth_error demo_csv 1 = Some c /\
            Pop.NAME beaver = Csv.CTYNAME c /\
            Pop.POP2020 beaver = Csv.POPESTIMATE2020 c /\
            Pop.POP2024 beaver = Csv.POPESTIMATE2024 c.
Proof.
  apply (loader_columns demo_table csv_path demo_csv demo_pop 1 beaver).
  - reflexivity.
  - reflexivity.
  - left. reflexivity.
Defined.


Lemma geoid_same_county_witness :
  Pop.GEOID beaver = Pop.GEOID cache <-> 1 = 5.
Proof.
  apply (geoid_same_county demo_table csv_path demo_csv demo_pop
           1 beaver (Csv.mk 50 49 1 "Beaver County" 10000 10500)
           3 cache (Csv.mk 50 49 5 "Cache County" 5000 4800)).
  - reflexivity.
  - reflexivity.
  - left. reflexivity.
  - reflexivity.
  - right. left. reflexivity.
  - reflexivity.
Defined.

Lemma demo_counties_unique :
  NoDup (map Csv.COUNTY (filter utah_county demo_csv)).
Proof.
  simpl. repeat constructor; simpl; intuition discriminate.
Defined.

Lemma geoid_unique_witness : NoDup (map Pop.GEOID (rows demo_pop)).
Proof.
  apply (geoid_unique demo_table csv_path demo_csv demo_pop).
  - reflexivity.
  - reflexivity.
  - exact demo_counties_unique.
Defined.

Lemma normalize_geoid_number_witness :
  String.length (normalize_geoid (CInt 4001)) = 5%nat /\
  PyStr.all_digits (normalize_geoid (CInt 4001)) = true /\
  int_of (normalize_geoid (CInt 4001)) = Some 4001.
Proof. apply (normalize_geoid_number 4001). lia. Defined.

Lemma bad_archive_stops_loader_witness :
  load_tiger_counties (demo_world 404 not_found_page) initial =
  (mkState [] [HttpGet tiger_url; ZipOpen not_found_page],
   Raise ExtractionError).
Proof.
  apply (bad_archive_stops_loader (demo_world 404 not_found_page) initial
           (mkResponse 404 not_found_page)); reflexivity.
Defined.

Lemma loaded_rows_witness :
  exists layer raw,
    read_layer (demo_world 200 "PK..")
      (files (fst (load_tiger_counties (demo_world 200 "PK..") initial)))
      tiger_shp = Some layer /\
    List.length demo_tiger = List.length layer /\
    nth_error layer 2 = Some raw /\
    Tiger.STATEFP box_elder = Shp.STATEFP raw /\
    Tiger.NAME box_elder = Shp.NAME raw /\
    Tiger.geometry box_elder =
      reproject (demo_world 200 "PK..") 4326 (Shp.geometry raw).
Proof.
  apply (loaded_rows (demo_world 200 "PK..") initial demo_tiger 2 box_elder).
  - reflexivity.
  - right. right. left. reflexivity.
Defined.

Lemma joined_values_witness :
  (exists p, In p (rows demo_pop) /\
             Pop.GEOID p = Joined.GEOID cache_joined /\
             float_exact_pop p = true /\
             Joined.NAME_y cache_joined = Some (Pop.NAME p) /\
             Joined.STATEFP_y cache_joined = Some (Pop.STATEFP p) /\
             Joined.POP2020 cache_joined = Some (Pop.POP2020 p) /\
             Joined.POP2024 cache_joined = Some (Pop.POP2024 p) /\
             Joined.Pop_Change cache_joined = Some (Pop.Pop_Change p)) \/
  ((forall p, In p (rows demo_pop) ->
              Pop.GEOID p <> Joined.GEOID cache_joined) /\
   Joined.NAME_y cache_joined = None /\
   Joined.STATEFP_y cache_joined = None /\
   Joined.POP2020 cache_joined = None /\
   Joined.POP2024 cache_joined = None /\
   Joined.Pop_Change cache_joined = None).
Proof.
  apply (joined_values demo_tiger demo_pop cache_joined).
  - reflexivity.
  - right. right. left. reflexivity.
Defined.

Lemma joined_rows_in_utah_witness :
  Joined.STATEFP_x (join_row box_elder None) = "49" /\
  exists i, In (i, boundary_of (join_row box_elder None)) demo_tiger.
Proof.
  apply (joined_rows_in_utah demo_tiger demo_pop (join_row box_elder None)).
  right. left. reflexivity.
Defined.

Lemma plot_df_determined_witness :
  [ (1%nat, beaver); (3%nat, cache) ] =
  plot_df [ (3%nat, cache); (1%nat, beaver) ].
Proof.
  apply (plot_df_determined [ (3%nat, cache); (1%nat, beaver) ]
           [ (1%nat, beaver); (3%nat, cache) ]).
  - simpl. repeat constructor; simpl; intuition discriminate.
  - apply perm_swap.
  - repeat constructor; unfold descending; simpl; lia.
Defined.


Lemma pipeline_row_count_witness :
  List.length (utah_gdf demo_tiger demo_pop) =
  List.length (select in_utah demo_tiger).
Proof.
  apply (pipeline_row_count demo_table csv_path demo_csv demo_pop demo_tiger).
  - reflexivity.
  - reflexivity.
  - exact demo_counties_unique.
Defined.
